(** * dropshell: the command loop of [unixsh.c]

    A shallow embedding of the shell's tokenizer ([parse_input]), its
    one-entry history, the built-in dispatcher, the two-stage pipeline
    executor and the read-eval loop of [main], together with the
    properties of these that the design document states.

    Conventions.
    - A value of type [string] is the content of a NUL-terminated C
      buffer (the characters before the terminator).
    - [char *args[MAX_ARGS]] is a [list (option string)] of length
      [MAX_ARGS]; [None] is the [NULL] pointer.  A store or a load
      outside the array is undefined behaviour in C and is a [Fault]
      here; nothing is claimed about an execution after a fault.
    - System calls are answered by an [os] record (an oracle for one
      loop iteration) and leave an [event] in the trace of the
      iteration. *)

From Stdlib Require Import Ascii String.
From stdpp Require Import base option list strings pretty.

Open Scope string_scope.
Open Scope list_scope.

(** ** Constants of the source *)

Definition MAX_LINE : nat := 80.
Definition MAX_ARGS : nat := 40.

(** ** Undefined behaviour as an error monad *)

Inductive fault : Type :=
  | StoreOutOfBounds (index capacity : nat)
  | LoadOutOfBounds
  | NullDereference.

Inductive exec (A : Type) : Type :=
  | Ret (a : A)
  | Fault (f : fault).
Arguments Ret {A} a.
Arguments Fault {A} f.

#[global] Instance exec_ret : MRet exec := fun A a => Ret a.

#[global] Instance exec_bind : MBind exec := fun A B k m =>
  match m with
  | Ret a => k a
  | Fault f => Fault f
  end.

(** ** C strings *)

(** The delimiter set [" \t\n"] handed to [strtok]. *)
Definition is_delim (c : ascii) : bool :=
  match c with
  | " "%char | "009"%char | "010"%char => true
  | _ => false
  end.

Definition is_newline (c : ascii) : bool :=
  match c with
  | "010"%char => true
  | _ => false
  end.

(** [strcmp(a, b) == 0]. *)
Definition streq (a b : string) : bool := bool_decide (a = b).

(** [input[strcspn(input, "\n")] = 0]: cut the buffer at its first
    newline (or leave it alone when it has none). *)
Fixpoint chomp (s : string) : string :=
  match s with
  | EmptyString => EmptyString
  | String c s' => if is_newline c then EmptyString else String c (chomp s')
  end.

(** *** [strtok]

    [strtok] keeps a saved position between calls.  [strtok s] is one
    call whose scan starts at [s]: it skips the leading delimiters; if
    nothing is left it returns [NULL] ([None]); otherwise the token runs
    up to the next delimiter (which is overwritten by NUL) and the saved
    position is the character after it. *)

Fixpoint skip_delims (s : string) : string :=
  match s with
  | EmptyString => EmptyString
  | String c s' => if is_delim c then skip_delims s' else s
  end.

Fixpoint take_token (s : string) : string * string :=
  match s with
  | EmptyString => (EmptyString, EmptyString)
  | String c s' =>
      if is_delim c then (EmptyString, s')
      else let '(t, r) := take_token s' in (String c t, r)
  end.

Definition strtok (s : string) : option (string * string) :=
  match skip_delims s with
  | EmptyString => None
  | String c s' => Some (take_token (String c s'))
  end.

(** The tokens that successive [strtok] calls return until the first
    [NULL].  A call that returns a token consumes at least one
    character, so [String.length s] calls are enough ([tokens_unfold]
    below). *)
Fixpoint tokens_fuel (fuel : nat) (s : string) : list string :=
  match fuel with
  | O => []
  | S fuel' =>
      match strtok s with
      | None => []
      | Some (t, r) => t :: tokens_fuel fuel' r
      end
  end.

Definition tokens (s : string) : list string :=
  tokens_fuel (String.length s) s.

(** ** The argument array *)

Abbreviation argv_array := (list (option string)).

(** [args[i] = v]. *)
Definition store (args : argv_array) (i : nat) (v : option string)
  : exec argv_array :=
  if decide (i < length args) then Ret (<[i := v]> args)
  else Fault (StoreOutOfBounds i (length args)).

(** [args[i]]. *)
Definition load (args : argv_array) (i : nat) : exec (option string) :=
  match args !! i with
  | Some v => Ret v
  | None => Fault LoadOutOfBounds
  end.

(** The NULL-terminated vector a [char **] points to: the cells up to
    the first [NULL].  This is what [execvp] and every
    [for (...; p[i] != NULL; ...)] loop read. *)
Fixpoint read_argv (cells : argv_array) : exec (list string) :=
  match cells with
  | [] => Fault LoadOutOfBounds
  | None :: _ => Ret []
  | Some t :: rest => l ← read_argv rest; Ret (t :: l)
  end.

(** ** [parse_input] (unixsh.c, lines 87-107) *)

(** [while (token != NULL) { args[i++] = token; token = strtok(NULL, ...); }] *)
Fixpoint store_tokens (toks : list string) (i : nat) (args : argv_array)
  : exec (nat * argv_array) :=
  match toks with
  | [] => Ret (i, args)
  | t :: toks' =>
      args' ← store args i (Some t);
      store_tokens toks' (S i) args'
  end.

Definition parse_input (input : string) (args : argv_array)
  : exec (bool * argv_array) :=
  '(i, args1) ← store_tokens (tokens input) 0 args;
  args2 ← store args1 i None;
  match i with
  | O => Ret (false, args2)
  | S j =>
      last_tok ← load args2 j;
      match last_tok with
      | Some t =>
          if streq t "&" then
            args3 ← store args2 j None;
            Ret (true, args3)
          else Ret (false, args2)
      | None => Fault NullDereference
      end
  end.

(** ** The operating system, seen from the shell *)

(** How a child's standard streams are wired before [execvp]. *)
Inductive stdio : Type :=
  | Inherited
  | StdoutToPipe
  | StdinFromPipe.

(** A forked child: it calls [execvp(file, argv)]; [child_file] is
    [None] when the pointer handed to [execvp] is [NULL]. *)
Record child : Type := Child {
  child_io : stdio;
  child_file : option string;
  child_argv : list string
}.

Inductive event : Type :=
  | Printf (text : string)
  | Perror (prefix : string)
  | Reap (reclaimed : nat)
  | Chdir (path : option string) (ok : bool)
  | Pipe (ok : bool)
  | Fork (pid : positive) (c : child)
  | ForkFailed
  | ClosePipe
  | Waitpid (pid : positive).

(** The answers of the system calls of one loop iteration. *)
Record os : Type := Os {
  zombies : nat;
  getenv_HOME : option string;
  chdir_to : string -> option string -> option string;
  getcwd_ok : bool;
  pipe_ok : bool;
  fork_first : option positive;
  fork_second : option positive;
  can_exec : string -> bool
}.

Definition nl : string := String "010"%char EmptyString.

(** What a child does after the fork: [execvp] replaces its image, or
    it prints the diagnostic and leaves with status 1.  [execvp] on a
    [NULL] file name is outside the contract of the call. *)
Inductive child_outcome : Type :=
  | Runs (file : string) (argv : list string) (io : stdio)
  | Exits (output : string) (status : nat)
  | ChildUndefined.

Definition run_child (o : os) (c : child) : child_outcome :=
  match child_file c with
  | None => ChildUndefined
  | Some f =>
      if can_exec o f then Runs f (child_argv c) (child_io c)
      else Exits ("Command not found: " +:+ f +:+ nl) 1
  end.

(** ** The shell's state *)

(** The globals [history] and [history_available], the locals of
    [main] that live across iterations ([should_run], [args]) and the
    working directory of the process. *)
Record shell : Type := Shell {
  history : string;
  history_available : bool;
  should_run : bool;
  args : argv_array;
  cwd : string
}.

Definition set_history (s : shell) (line : string) : shell :=
  Shell line true (should_run s) (args s) (cwd s).
Definition set_should_run (s : shell) (b : bool) : shell :=
  Shell (history s) (history_available s) b (args s) (cwd s).
Definition set_args (s : shell) (a : argv_array) : shell :=
  Shell (history s) (history_available s) (should_run s) a (cwd s).
Definition set_cwd (s : shell) (d : string) : shell :=
  Shell (history s) (history_available s) (should_run s) (args s) d.

(** The state [main] starts in; the array is not initialised, so its
    content [junk] is arbitrary. *)
Definition initial (junk : argv_array) (dir : string) : shell :=
  Shell "" false true junk dir.

(** ** Built-ins (unixsh.c, lines 31-80) *)

Definition builtin_help : list event :=
  [ Printf ("UnixShell Help:" +:+ nl);
    Printf ("Type program names and arguments, and hit enter." +:+ nl);
    Printf ("Append '&' for background execution." +:+ nl);
    Printf ("Use '!!' to execute the last command." +:+ nl);
    Printf ("Built-in commands:" +:+ nl);
    Printf ("  cd <path> : Change directory" +:+ nl);
    Printf ("  pwd       : Print working directory" +:+ nl);
    Printf ("  exit      : Exit the shell" +:+ nl);
    Printf ("  help      : Show this help message" +:+ nl);
    Printf ("  history   : Show the last executed command" +:+ nl) ].

Definition no_history_notice : event :=
  Printf ("No commands in history." +:+ nl).

Definition builtin_history (s : shell) : list event :=
  if history_available s
  then [ Printf ("Last command: " +:+ history s +:+ nl) ]
  else [ no_history_notice ].

Definition builtin_pwd (o : os) (s : shell) : list event :=
  if getcwd_ok o then [ Printf (cwd s +:+ nl) ]
  else [ Perror "getcwd() error" ].

(** [chdir(path)]: the call, and the directory afterwards. *)
Definition chdir (o : os) (s : shell) (path : option string)
  : shell * bool :=
  match chdir_to o (cwd s) path with
  | Some d => (set_cwd s d, true)
  | None => (s, false)
  end.

(** The two branches of [builtin_cd], for the value [a1] of [args[1]]:
    the result of [chdir(getenv("HOME"))] is dropped, the result of
    [chdir(args[1])] is tested. *)
Definition cd_to (o : os) (s : shell) (a1 : option string)
  : shell * list event :=
  match a1 with
  | None =>
      let '(s', ok) := chdir o s (getenv_HOME o) in
      (s', [ Chdir (getenv_HOME o) ok ])
  | Some path =>
      let '(s', ok) := chdir o s (Some path) in
      if ok then (s', [ Chdir (Some path) true ])
      else (s', [ Chdir (Some path) false; Perror "cd failed" ])
  end.

Definition builtin_cd (o : os) (s : shell) : exec (shell * list event) :=
  a1 ← load (args s) 1;
  Ret (cd_to o s a1).

(** ** [execute_pipe] (unixsh.c, lines 113-169) *)

Definition execute_pipe (o : os) (s : shell) (pipe_idx : nat)
  : exec (shell * list event) :=
  a ← store (args s) pipe_idx None;
  let s' := set_args s a in
  let args2 := drop (S pipe_idx) a in
  if negb (pipe_ok o) then Ret (s', [ Pipe false; Perror "Pipe failed" ])
  else
    match fork_first o with
    | None => Ret (s', [ Pipe true; ForkFailed; Perror "Fork failed" ])
    | Some p1 =>
        file1 ← load a 0;
        argv1 ← read_argv a;
        let c1 := Child StdoutToPipe file1 argv1 in
        match fork_second o with
        | None =>
            Ret (s', [ Pipe true; Fork p1 c1; ForkFailed;
                       Perror "Fork failed" ])
        | Some p2 =>
            file2 ← load args2 0;
            argv2 ← read_argv args2;
            let c2 := Child StdinFromPipe file2 argv2 in
            Ret (s', [ Pipe true; Fork p1 c1; Fork p2 c2; ClosePipe;
                       Waitpid p1; Waitpid p2 ])
        end
    end.

(** ** [main] (unixsh.c, lines 171-285) *)

(** [fgets(input, n, stdin)]: at most [n - 1] characters, stopping
    after a newline; [None] at end of input. *)
Fixpoint fgets_chars (k : nat) (stdin : string) : string * string :=
  match k with
  | O => (EmptyString, stdin)
  | S k' =>
      match stdin with
      | EmptyString => (EmptyString, EmptyString)
      | String c rest =>
          if is_newline c then (String c EmptyString, rest)
          else let '(b, rest') := fgets_chars k' rest in (String c b, rest')
      end
  end.

Definition fgets (n : nat) (stdin : string) : option (string * string) :=
  match stdin with
  | EmptyString => None
  | _ => Some (fgets_chars (n - 1) stdin)
  end.

(** The history feature, lines 196-207: what [!!] and any other
    non-empty line do to the store, and the line that is interpreted. *)
Inductive recalled : Type :=
  | NoHistory
  | Interpret (line : string) (s' : shell) (echo : list event).

Definition main_history (s : shell) (input : string) : recalled :=
  if streq input "!!" then
    if negb (history_available s) then NoHistory
    else Interpret (history s) s [ Printf (history s +:+ nl) ]
  else Interpret input (set_history s input) [].

(** [for (int i = 0; args[i] != NULL; i++) if (strcmp(args[i], "|") == 0) ...],
    lines 245-251; [None] is [pipe_idx == -1]. *)
Fixpoint find_pipe (cells : argv_array) (i : nat) : exec (option nat) :=
  match cells with
  | [] => Fault LoadOutOfBounds
  | None :: _ => Ret None
  | Some t :: rest =>
      if streq t "|" then Ret (Some i) else find_pipe rest (S i)
  end.

(** Standard command execution, lines 262-281. *)
Definition launch (o : os) (s : shell) (first : string) (background : bool)
  : exec (list event) :=
  match fork_first o with
  | None => Ret [ ForkFailed; Perror "Fork failed" ]
  | Some pid =>
      argv ← read_argv (args s);
      let c := Child Inherited (Some first) argv in
      if background then
        Ret [ Fork pid c;
              Printf ("[Process " +:+ pretty (Z.pos pid) +:+
                      " running in background]" +:+ nl) ]
      else Ret [ Fork pid c; Waitpid pid ]
  end.

Definition pipe_background_error : event :=
  Printf ("Error: Pipes cannot run in background in this version." +:+ nl).

(** Lines 215-281: dispatch on the parsed line. *)
Definition main_dispatch (o : os) (s : shell) (background : bool)
  : exec (shell * list event) :=
  a0 ← load (args s) 0;
  match a0 with
  | None => Ret (s, [])
  | Some first =>
      if streq first "exit" then Ret (set_should_run s false, [])
      else if streq first "cd" then builtin_cd o s
      else if streq first "pwd" then Ret (s, builtin_pwd o s)
      else if streq first "help" then Ret (s, builtin_help)
      else if streq first "history" then Ret (s, builtin_history s)
      else
        pipe_idx ← find_pipe (args s) 0;
        match pipe_idx with
        | Some k =>
            if background then Ret (s, [ pipe_background_error ])
            else execute_pipe o s k
        | None =>
            evs ← launch o s first background;
            Ret (s, evs)
        end
  end.

(** Lines 190-281: one line, from the buffer [fgets] filled to the
    [continue] or the end of the loop body. *)
Definition process_line (o : os) (s : shell) (buffer : string)
  : exec (shell * list event) :=
  let input := chomp buffer in
  if streq input "" then Ret (s, [])
  else
    match main_history s input with
    | NoHistory => Ret (s, [ no_history_notice ])
    | Interpret line s1 echo =>
        '(background, a) ← parse_input line (args s1);
        '(s2, evs) ← main_dispatch o (set_args s1 a) background;
        Ret (s2, echo ++ evs)
    end.

(** The buffer as the string functions see it: [fgets] stores the
    bytes it has read, NUL bytes included, and [strcspn], [strlen],
    [strcmp], [strcpy] and [strtok] stop at the first NUL. *)
Definition is_nul (c : ascii) : bool :=
  match c with
  | "000"%char => true
  | _ => false
  end.

Fixpoint c_string (bytes : string) : string :=
  match bytes with
  | EmptyString => EmptyString
  | String c bytes' => if is_nul c then EmptyString else String c (c_string bytes')
  end.

(** Lines 176-188 and the body: one iteration of [while (should_run)],
    on the input [stdin] as the [fgets] of this iteration finds it.  The
    last component tells whether the loop goes on.  The children forked
    in the iteration share the input with the shell, so what the next
    [fgets] finds is not a function of this iteration and is not
    returned. *)
Definition main_iteration (o : os) (s : shell) (stdin : string)
  : exec (shell * list event * bool) :=
  let prompt := [ Reap (zombies o); Printf "uinxsh> " ] in
  match fgets MAX_LINE stdin with
  | None => Ret (s, prompt ++ [ Printf nl ], false)
  | Some (buffer, _) =>
      '(s', evs) ← process_line o s (c_string buffer);
      Ret (s', prompt ++ evs, should_run s')
  end.

(** ** Vocabulary of the statements *)

(** The array [a] starts with the NULL-terminated vector [l]. *)
Definition holds (a : argv_array) (l : list string) : Prop :=
  exists junk, a = (Some <$> l) ++ None :: junk.

(** The last token is the literal [&]. *)
Definition background_marker (toks : list string) : bool :=
  match last toks with
  | Some t => streq t "&"
  | None => false
  end.

(** The token sequence without its trailing [&], if it has one. *)
Definition strip_marker (toks : list string) : list string :=
  if background_marker toks then removelast toks else toks.

(** A token as [strtok] can return it: not empty, no delimiter. *)
Fixpoint no_delim (t : string) : bool :=
  match t with
  | EmptyString => true
  | String c t' => negb (is_delim c) && no_delim t'
  end.

Definition token (t : string) : Prop := t <> EmptyString /\ no_delim t = true.

(** The tokens written on one line, a blank between neighbours. *)
Fixpoint unwords (ws : list string) : string :=
  match ws with
  | [] => EmptyString
  | w :: ws' =>
      match ws' with
      | [] => w
      | _ :: _ => w +:+ String " "%char (unwords ws')
      end
  end.

(** The closed set of built-in command names. *)
Definition builtin_names : list string :=
  [ "exit"; "cd"; "pwd"; "help"; "history" ].

Definition is_builtin (t : string) : bool := bool_decide (t ∈ builtin_names).

(** The first token of the line names a built-in. *)
Definition starts_with_builtin (toks : list string) : bool :=
  match toks with
  | t :: _ => is_builtin t
  | [] => false
  end.

(** Events of process creation and of the channel between processes. *)
Definition is_process_event (e : event) : bool :=
  match e with
  | Pipe _ | Fork _ _ | ForkFailed | ClosePipe | Waitpid _ => true
  | Printf _ | Perror _ | Reap _ | Chdir _ _ => false
  end.

(** The children an iteration has forked. *)
Definition children (evs : list event) : list child :=
  omap (fun e => match e with Fork _ c => Some c | _ => None end) evs.

(** What an iteration has written to the terminal. *)
Definition is_output (e : event) : bool :=
  match e with
  | Printf _ | Perror _ => true
  | _ => false
  end.

Definition output (evs : list event) : list event := filter is_output evs.

(** The trace of [execute_pipe] for the two sides [left] and [right],
    under the answers [o] of [pipe] and [fork]. *)
Definition pipeline_trace (o : os) (left right : list string) : list event :=
  let c1 := Child StdoutToPipe (head left) left in
  let c2 := Child StdinFromPipe (head right) right in
  if negb (pipe_ok o) then [ Pipe false; Perror "Pipe failed" ]
  else
    match fork_first o, fork_second o with
    | None, _ => [ Pipe true; ForkFailed; Perror "Fork failed" ]
    | Some p1, None =>
        [ Pipe true; Fork p1 c1; ForkFailed; Perror "Fork failed" ]
    | Some p1, Some p2 =>
        [ Pipe true; Fork p1 c1; Fork p2 c2; ClosePipe;
          Waitpid p1; Waitpid p2 ]
    end.

(** The only diagnostics of a pipeline: a failed [pipe] or [fork]. *)
Definition pipe_diagnostics (o : os) : list event :=
  if negb (pipe_ok o) then [ Perror "Pipe failed" ]
  else
    match fork_first o, fork_second o with
    | Some _, Some _ => []
    | _, _ => [ Perror "Fork failed" ]
    end.

(** What the built-in [name] does, given the second token [arg1] of
    the line (only [cd] looks at it). *)
Definition run_builtin (o : os) (s : shell) (name : string)
    (arg1 : option string) : shell * list event :=
  if streq name "exit" then (set_should_run s false, [])
  else if streq name "cd" then cd_to o s arg1
  else if streq name "pwd" then (s, builtin_pwd o s)
  else if streq name "help" then (s, builtin_help)
  else (s, builtin_history s).

(** The loop of [main] over the buffers [fgets] delivers, each with
    the answers of the system calls of its iteration. *)
Fixpoint run_lines (s : shell) (steps : list (os * string)) : exec shell :=
  match steps with
  | [] => Ret s
  | (o, buffer) :: steps' =>
      if should_run s then
        '(s', _) ← process_line o s buffer;
        run_lines s' steps'
      else Ret s
  end.

(** Sample environment: every call succeeds, [HOME] is [/home/user]. *)
Definition sample_os : os :=
  Os 0 (Some "/home/user") (fun _ path => path) true true
     (Some 101%positive) (Some 102%positive) (fun _ => true).

(** Sample environment in which [chdir] fails and [HOME] is unset. *)
Definition no_home_os : os :=
  Os 0 None (fun _ _ => None) true true
     (Some 101%positive) (Some 102%positive) (fun _ => true).

Definition fresh_shell : shell := initial (replicate MAX_ARGS None) "/".

(** Forty one-character tokens separated by single blanks: the longest
    token sequence a buffer of [MAX_LINE - 1] characters can hold. *)
Definition forty_tokens : string :=
  "a a a a a a a a a a a a a a a a a a a a a a a a a a a a a a a a a a a a a a a a".

(** ** Vocabulary of the further properties *)

(** The line that is parsed: the stored one on a recall, the typed one
    otherwise. *)
Definition submitted (s : shell) (buffer : string) : string :=
  if streq (chomp buffer) "!!" then history s else chomp buffer.

(** The tokens before and after the first [|]. *)
Fixpoint before_pipe (l : list string) : list string :=
  match l with
  | [] => []
  | t :: l' => if streq t "|" then [] else t :: before_pipe l'
  end.

Fixpoint after_pipe (l : list string) : list string :=
  match l with
  | [] => []
  | t :: l' => if streq t "|" then l' else after_pipe l'
  end.

(** The trace of the standard command execution for the argument
    vector [argv]. *)
Definition launch_trace (o : os) (argv : list string) (background : bool)
  : list event :=
  match fork_first o with
  | None => [ ForkFailed; Perror "Fork failed" ]
  | Some pid =>
      let c := Child Inherited (head argv) argv in
      if background then
        [ Fork pid c;
          Printf ("[Process " +:+ pretty (Z.pos pid) +:+
                  " running in background]" +:+ nl) ]
      else [ Fork pid c; Waitpid pid ]
  end.

(** What the argument vector [l] and the background flag make the
    shell do, read off the vector instead of the array. *)
Definition dispatch (o : os) (s : shell) (l : list string)
    (background : bool) : shell * list event :=
  match l with
  | [] => (s, [])
  | first :: rest =>
      if is_builtin first then run_builtin o s first (head rest)
      else if bool_decide ("|" ∈ l) then
        if background then (s, [ pipe_background_error ])
        else (s, pipeline_trace o (before_pipe l) (after_pipe l))
      else (s, launch_trace o l background)
  end.

(** No newline in the string. *)
Fixpoint newline_free (t : string) : bool :=
  match t with
  | EmptyString => true
  | String c t' => negb (is_newline c) && newline_free t'
  end.

(** The state is fit for one more line: the array has [MAX_ARGS]
    cells, and the stored line, should it be recalled, fits it. *)
Definition ready (s : shell) : Prop :=
  length (args s) = MAX_ARGS /\
  length (tokens (history s)) < MAX_ARGS.

(** Sample environments in which [fork] fails at once, in which
    [pipe] fails, and in which only the second [fork] fails. *)
Definition no_fork_os : os :=
  Os 0 (Some "/home/user") (fun _ path => path) true true
     None None (fun _ => true).

Definition no_pipe_os : os :=
  Os 0 (Some "/home/user") (fun _ path => path) true false
     (Some 101%positive) (Some 102%positive) (fun _ => true).

Definition one_fork_os : os :=
  Os 0 (Some "/home/user") (fun _ path => path) true true
     (Some 101%positive) None (fun _ => true).

(** A line of [MAX_LINE - 1] characters: [echo] and one long word. *)
Definition long_echo : string :=
  "echo xxxxxxxxxxxxxxxxxxxxxxxxxxxxxxxxxxxxxxxxxxxxxxxxxxxxxxxxxxxxxxxxxxxxxxxxxx".

(** * Properties *)

(** ** The tokenizer *)

Section Tokenizer.

Lemma skip_delims_length (s : string) :
  String.length (skip_delims s) <= String.length s.
Proof.
  induction s as [|c s IH]; simpl; [lia|].
  destruct (is_delim c); simpl; lia.
Qed.

(** Either the token runs to the end of the buffer, or a delimiter was
    overwritten and the rest starts after it. *)
Lemma take_token_length (s t r : string) :
  take_token s = (t, r) ->
  (r = EmptyString /\ String.length t <= String.length s) \/
  String.length t + 1 + String.length r = String.length s.
Proof.
  revert t r. induction s as [|c s IH]; simpl; intros t r H.
  - inversion H; subst. left. split; [reflexivity | simpl; lia].
  - destruct (is_delim c).
    + inversion H; subst. right. simpl. lia.
    + destruct (take_token s) as [t' r'] eqn:E. inversion H; subst.
      destruct (IH t' r eq_refl) as [[-> Hl] | Hl]; simpl.
      * left. split; [reflexivity | lia].
      * right. lia.
Qed.

Lemma skip_delims_head (s : string) (c : ascii) (s' : string) :
  skip_delims s = String c s' -> is_delim c = false.
Proof.
  induction s as [|d s IH]; simpl; [discriminate|].
  destruct (is_delim d) eqn:E; [exact IH|].
  intros H. inversion H; subst. exact E.
Qed.

Lemma strtok_nonempty (s t r : string) :
  strtok s = Some (t, r) -> t <> EmptyString.
Proof.
  unfold strtok. destruct (skip_delims s) as [|c s'] eqn:E; [discriminate|].
  apply skip_delims_head in E. simpl. rewrite E.
  destruct (take_token s') as [t' r']. intros H. inversion H. discriminate.
Qed.

Lemma strtok_consumes (s t r : string) :
  strtok s = Some (t, r) ->
  (r = EmptyString /\ 1 <= String.length s) \/
  String.length r + 2 <= String.length s.
Proof.
  intros H. pose proof (strtok_nonempty _ _ _ H) as Hne.
  unfold strtok in H. pose proof (skip_delims_length s) as Hs.
  destruct (skip_delims s) as [|c s'] eqn:E; [discriminate|].
  assert (H1 : take_token (String c s') = (t, r)) by congruence.
  apply take_token_length in H1.
  destruct t as [|c0 t]; [congruence|]. simpl in *.
  destruct H1 as [[-> _] | H1]; [left; split; [reflexivity | lia] | right; lia].
Qed.

Lemma strtok_shorter (s t r : string) :
  strtok s = Some (t, r) -> String.length r < String.length s.
Proof. intros H. apply strtok_consumes in H. destruct H as [[-> ?]|?]; simpl; lia. Qed.

(** Any fuel from the length of the buffer on gives the same tokens. *)
Lemma tokens_fuel_enough (n m : nat) (s : string) :
  String.length s <= n -> String.length s <= m ->
  tokens_fuel n s = tokens_fuel m s.
Proof.
  revert m s. induction n as [|n IH]; intros m s Hn Hm.
  - destruct s; [|simpl in Hn; lia]. destruct m; reflexivity.
  - destruct m as [|m].
    + destruct s; [reflexivity | simpl in Hm; lia].
    + simpl. destruct (strtok s) as [[t r]|] eqn:E; [|reflexivity].
      apply strtok_shorter in E. f_equal. apply IH; lia.
Qed.

(** The equation of the [while (token != NULL)] loop. *)
Lemma tokens_unfold (s : string) :
  tokens s =
  match strtok s with
  | None => []
  | Some (t, r) => t :: tokens r
  end.
Proof.
  unfold tokens. destruct s as [|c s]; [reflexivity|].
  cbn [String.length tokens_fuel].
  destruct (strtok (String c s)) as [[t r]|] eqn:E; [|reflexivity].
  apply strtok_shorter in E. simpl in E. f_equal.
  apply tokens_fuel_enough; lia.
Qed.

(** A buffer of [n] characters holds at most [(n + 1) / 2] tokens. *)
Lemma tokens_length_bound (s : string) :
  2 * length (tokens s) <= String.length s + 1.
Proof.
  remember (String.length s) as n eqn:Hn.
  revert s Hn. induction (lt_wf n) as [n _ IH]; intros s ->.
  rewrite tokens_unfold. destruct (strtok s) as [[t r]|] eqn:E; [|simpl; lia].
  pose proof (strtok_consumes _ _ _ E) as [[-> Hl] | Hl].
  - rewrite tokens_unfold. simpl. lia.
  - specialize (IH (String.length r) ltac:(lia) r eq_refl). simpl. lia.
Qed.

(** No token is the empty string. *)
Lemma tokens_nonempty (s : string) : Forall (fun t => t <> EmptyString) (tokens s).
Proof.
  remember (String.length s) as n eqn:Hn.
  revert s Hn. induction (lt_wf n) as [n _ IH]; intros s ->.
  rewrite tokens_unfold. destruct (strtok s) as [[t r]|] eqn:E; [|constructor].
  constructor; [eapply strtok_nonempty; eassumption|].
  eapply IH; [|reflexivity]. eapply strtok_shorter; eassumption.
Qed.

Lemma take_token_delim (t rest : string) (c : ascii) :
  no_delim t = true -> is_delim c = true ->
  take_token (t +:+ String c rest) = (t, rest).
Proof.
  intros Ht Hc. induction t as [|d t IH]; simpl.
  - by rewrite Hc.
  - simpl in Ht. apply andb_true_iff in Ht as [Hd Ht].
    apply negb_true_iff in Hd. rewrite Hd, (IH Ht). reflexivity.
Qed.

Lemma take_token_whole (t : string) :
  no_delim t = true -> take_token t = (t, EmptyString).
Proof.
  intros Ht. induction t as [|d t IH]; [reflexivity|]. simpl in *.
  apply andb_true_iff in Ht as [Hd Ht]. apply negb_true_iff in Hd.
  rewrite Hd, (IH Ht). reflexivity.
Qed.

Lemma strtok_token_delim (t rest : string) (c : ascii) :
  token t -> is_delim c = true ->
  strtok (t +:+ String c rest) = Some (t, rest).
Proof.
  intros [Hne Ht] Hc. destruct t as [|d t]; [done|].
  pose proof (take_token_delim (String d t) rest c Ht Hc) as Htk.
  simpl in Ht. apply andb_true_iff in Ht as [Hd _].
  apply negb_true_iff in Hd. unfold strtok.
  change (String d t +:+ String c rest)
    with (String d (t +:+ String c rest)) in *.
  cbn [skip_delims]. rewrite Hd. by rewrite Htk.
Qed.

Lemma strtok_token_whole (t : string) :
  token t -> strtok t = Some (t, EmptyString).
Proof.
  intros [Hne Ht]. destruct t as [|d t]; [done|].
  pose proof (take_token_whole (String d t) Ht) as Htk.
  simpl in Ht. apply andb_true_iff in Ht as [Hd _].
  apply negb_true_iff in Hd. unfold strtok.
  cbn [skip_delims]. rewrite Hd. by rewrite Htk.
Qed.

(** Every sequence of tokens is the token sequence of a line. *)
Lemma tokens_unwords (ws : list string) :
  Forall token ws -> tokens (unwords ws) = ws.
Proof.
  induction ws as [|w ws IH]; intros Hall; [reflexivity|].
  inversion Hall as [|? ? Hw Hws]; subst.
  rewrite tokens_unfold. cbn [unwords]. destruct ws as [|w' ws].
  - rewrite (strtok_token_whole w Hw). by rewrite tokens_unfold.
  - rewrite (strtok_token_delim w _ " "%char Hw eq_refl).
    by rewrite (IH Hws).
Qed.

End Tokenizer.

(** ** The argument array and [parse_input] *)

Section Arrays.

Implicit Types (a pre rest junk : argv_array) (toks l : list string).

Lemma store_middle pre rest (x v : option string) :
  store (pre ++ x :: rest) (length pre) v = Ret (pre ++ v :: rest).
Proof.
  unfold store. rewrite length_app. simpl.
  destruct (decide (length pre < length pre + S (length rest))); [|lia].
  f_equal. rewrite insert_app_r_alt by lia. by rewrite Nat.sub_diag.
Qed.

Lemma store_end pre (v : option string) :
  store pre (length pre) v = Fault (StoreOutOfBounds (length pre) (length pre)).
Proof. unfold store. destruct (decide (length pre < length pre)); [lia | done]. Qed.

Lemma load_middle pre rest (x : option string) :
  load (pre ++ x :: rest) (length pre) = Ret x.
Proof. unfold load. by rewrite list_lookup_middle. Qed.

Lemma store_at pre rest (x v : option string) (i : nat) :
  i = length pre -> store (pre ++ x :: rest) i v = Ret (pre ++ v :: rest).
Proof. intros ->. apply store_middle. Qed.

Lemma load_at pre rest (x : option string) (i : nat) :
  i = length pre -> load (pre ++ x :: rest) i = Ret x.
Proof. intros ->. apply load_middle. Qed.

(** The loop fills the cells one after the other. *)
Lemma store_tokens_fits toks pre rest :
  length toks <= length rest ->
  store_tokens toks (length pre) (pre ++ rest) =
  Ret (length pre + length toks,
       pre ++ (Some <$> toks) ++ drop (length toks) rest).
Proof.
  revert pre rest. induction toks as [|t toks IH]; intros pre rest Hlen.
  - simpl. by rewrite Nat.add_0_r, drop_0.
  - destruct rest as [|x rest]; [simpl in Hlen; lia|].
    cbn [store_tokens]. rewrite store_middle. cbn [mbind exec_bind].
    replace (S (length pre)) with (length (pre ++ [Some t]))
      by (rewrite length_app; simpl; lia).
    rewrite (cons_middle (Some t) pre rest), app_assoc.
    rewrite IH by (simpl in Hlen; lia).
    rewrite length_app. simpl. rewrite <- app_assoc. simpl.
    do 2 f_equal. lia.
Qed.

(** One token too many and the loop stores past the array. *)
Lemma store_tokens_overflow toks pre rest :
  length rest < length toks ->
  store_tokens toks (length pre) (pre ++ rest) =
  Fault (StoreOutOfBounds (length (pre ++ rest)) (length (pre ++ rest))).
Proof.
  revert pre rest. induction toks as [|t toks IH]; intros pre rest Hlen.
  - simpl in Hlen. lia.
  - destruct rest as [|x rest].
    + cbn [store_tokens]. rewrite app_nil_r, store_end. reflexivity.
    + cbn [store_tokens]. rewrite store_middle. cbn [mbind exec_bind].
      replace (S (length pre)) with (length (pre ++ [Some t]))
        by (rewrite length_app; simpl; lia).
      rewrite (cons_middle (Some t) pre rest), app_assoc.
      rewrite IH by (simpl in Hlen; lia).
      rewrite !length_app. simpl. do 2 f_equal; lia.
Qed.

Lemma holds_length a l : holds a l -> length l < length a.
Proof.
  intros [junk ->]. rewrite length_app, length_fmap. simpl. lia.
Qed.

Lemma read_argv_prefix l junk :
  read_argv ((Some <$> l) ++ None :: junk) = Ret l.
Proof.
  induction l as [|t l IH]; [done|].
  rewrite fmap_cons. cbn [app read_argv]. by rewrite IH.
Qed.

Lemma read_argv_holds a l : holds a l -> read_argv a = Ret l.
Proof. intros [junk ->]. apply read_argv_prefix. Qed.

Lemma load_holds_0 a l : holds a l -> load a 0 = Ret (head l).
Proof. intros [junk ->]. by destruct l. Qed.

Lemma load_holds_1 a t l : holds a (t :: l) -> load a 1 = Ret (head l).
Proof. intros [junk ->]. by destruct l. Qed.

Lemma background_marker_snoc toks t :
  background_marker (toks ++ [t]) = streq t "&".
Proof. unfold background_marker. by rewrite last_snoc. Qed.

(** [parse_input] on a line that fits the array with its sentinel. *)
Lemma parse_input_fits (input : string) a :
  length (tokens input) < length a ->
  exists a',
    parse_input input a = Ret (background_marker (tokens input), a') /\
    holds a' (strip_marker (tokens input)) /\
    length a' = length a.
Proof.
  intros Hlen. unfold parse_input, strip_marker.
  pose proof (store_tokens_fits (tokens input) [] a ltac:(lia)) as Hst.
  simpl in Hst. rewrite Hst. clear Hst. cbn [mbind exec_bind].
  destruct (drop (length (tokens input)) a) as [|x junk] eqn:Hdrop.
  { apply (f_equal length) in Hdrop. rewrite length_drop in Hdrop.
    simpl in Hdrop. lia. }
  assert (Hla : length a = length (tokens input) + S (length junk)).
  { rewrite <- (take_drop (length (tokens input)) a) at 1.
    rewrite length_app, length_take, Hdrop. simpl. lia. }
  rewrite store_at by (by rewrite length_fmap). cbn [mbind exec_bind].
  destruct (tokens input) as [|t0 toks0] using rev_ind.
  - simpl. eexists. split; [reflexivity|]. split; [by exists junk | simpl in *; lia].
  - clear IHtoks0. rewrite length_app in *. simpl length in *.
    rewrite Nat.add_1_r. rewrite background_marker_snoc.
    rewrite fmap_app. simpl fmap. rewrite <- app_assoc. simpl app.
    rewrite load_at by (by rewrite length_fmap). cbn [mbind exec_bind].
    destruct (streq t0 "&") eqn:Eamp.
    + rewrite store_at by (by rewrite length_fmap). cbn [mbind exec_bind].
      eexists. split; [reflexivity|]. rewrite removelast_last. split.
      * by exists (None :: junk).
      * rewrite length_app, length_fmap. simpl. lia.
    + eexists. split; [reflexivity|]. split.
      * exists junk. rewrite fmap_app. simpl. by rewrite <- app_assoc.
      * rewrite length_app, length_fmap. simpl. lia.
Qed.

(** [parse_input] on a line with as many tokens as the array has
    cells, or more: the store at index [length a] is outside it. *)
Lemma parse_input_overflow (input : string) a :
  length a <= length (tokens input) ->
  parse_input input a = Fault (StoreOutOfBounds (length a) (length a)).
Proof.
  intros Hlen. unfold parse_input.
  destruct (decide (length a = length (tokens input))) as [Heq|Hne].
  - pose proof (store_tokens_fits (tokens input) [] a ltac:(lia)) as Hst.
    simpl in Hst. rewrite Hst. cbn [mbind exec_bind].
    rewrite <- Heq, drop_all, app_nil_r.
    replace (length a) with (length (Some <$> tokens input)) at 1
      by (rewrite length_fmap; lia).
    rewrite store_end. by rewrite length_fmap, Heq.
  - pose proof (store_tokens_overflow (tokens input) [] a ltac:(lia)) as Hst.
    simpl in Hst. by rewrite Hst.
Qed.

End Arrays.

(** ** Dispatch *)

Section Dispatch.

Implicit Types (a junk : argv_array) (toks l r : list string).
Implicit Types (o : os) (s : shell).

Lemma tokens_empty_line : tokens "" = [].
Proof. reflexivity. Qed.

Lemma tokens_recall_line : tokens "!!" = [ "!!" ].
Proof. reflexivity. Qed.

Lemma streq_true (x y : string) : streq x y = true <-> x = y.
Proof. unfold streq. apply bool_decide_eq_true. Qed.

Lemma streq_false (x y : string) : streq x y = false <-> x <> y.
Proof. unfold streq. apply bool_decide_eq_false. Qed.

Lemma streq_refl (x : string) : streq x x = true.
Proof. by apply streq_true. Qed.

Lemma not_builtin (t : string) :
  is_builtin t = false ->
  streq t "exit" = false /\ streq t "cd" = false /\ streq t "pwd" = false /\
  streq t "help" = false /\ streq t "history" = false.
Proof.
  unfold is_builtin, builtin_names. rewrite bool_decide_eq_false.
  intros H. repeat split; apply streq_false; intros ->; apply H;
    rewrite !elem_of_cons; auto 10.
Qed.

(** The scan for the separator stops at its first occurrence. *)
Lemma find_pipe_first l r junk (i : nat) :
  "|" ∉ l ->
  find_pipe ((Some <$> (l ++ "|" :: r)) ++ None :: junk) i =
  Ret (Some (i + length l)).
Proof.
  revert i. induction l as [|t l IH]; intros i Hnot.
  - simpl. by rewrite Nat.add_0_r.
  - apply not_elem_of_cons in Hnot as [Hne Hnot].
    cbn [app fmap list_fmap find_pipe].
    destruct (streq t "|") eqn:E; [apply streq_true in E; congruence|].
    rewrite (IH (S i) Hnot). simpl. do 2 f_equal. lia.
Qed.

Lemma find_pipe_absent l junk (i : nat) :
  "|" ∉ l -> find_pipe ((Some <$> l) ++ None :: junk) i = Ret None.
Proof.
  revert i. induction l as [|t l IH]; intros i Hnot; [done|].
  apply not_elem_of_cons in Hnot as [Hne Hnot].
  cbn [app fmap list_fmap find_pipe].
  destruct (streq t "|") eqn:E; [apply streq_true in E; congruence|].
  by apply IH.
Qed.

(** [execute_pipe] on an array that holds [l ++ "|" :: r]. *)
Lemma execute_pipe_holds o s l r :
  holds (args s) (l ++ "|" :: r) ->
  exists a',
    execute_pipe o s (length l) = Ret (set_args s a', pipeline_trace o l r) /\
    length a' = length (args s).
Proof.
  intros [junk Ha]. unfold execute_pipe, pipeline_trace.
  rewrite Ha, fmap_app, fmap_cons, <- app_assoc. cbn [app].
  rewrite store_at by (by rewrite length_fmap). cbn [mbind exec_bind].
  set (a' := (Some <$> l) ++ None :: (Some <$> r) ++ None :: junk).
  assert (Hl : holds a' l) by (by eexists).
  assert (Hr : drop (S (length l)) a' = (Some <$> r) ++ None :: junk).
  { unfold a'. rewrite (cons_middle None), app_assoc.
    apply drop_app_length'. rewrite length_app, length_fmap. simpl. lia. }
  exists a'. split.
  - destruct (pipe_ok o); cbn [negb]; [|done].
    destruct (fork_first o) as [p1|]; [|done].
    rewrite (load_holds_0 _ _ Hl), (read_argv_holds _ _ Hl).
    cbn [mbind exec_bind].
    destruct (fork_second o) as [p2|]; [|done].
    rewrite Hr.
    rewrite (load_holds_0 _ r) by (by eexists).
    rewrite read_argv_prefix. done.
  - unfold a'. rewrite !length_app, !length_fmap. simpl.
    rewrite !length_app, !length_fmap. simpl. lia.
Qed.

(** Dispatch of a line whose first token is not a built-in. *)
Lemma main_dispatch_external o s (background : bool) (first : string) l :
  holds (args s) (first :: l) ->
  is_builtin first = false ->
  main_dispatch o s background =
  pipe_idx ← find_pipe (args s) 0;
  match pipe_idx with
  | Some k =>
      if background then Ret (s, [ pipe_background_error ])
      else execute_pipe o s k
  | None => evs ← launch o s first background; Ret (s, evs)
  end.
Proof.
  intros Hh Hb. unfold main_dispatch.
  rewrite (load_holds_0 _ _ Hh). cbn [mbind exec_bind head].
  destruct (not_builtin _ Hb) as (-> & -> & -> & -> & ->). done.
Qed.

Lemma bind_ret_nil (m : exec (shell * list event)) :
  ('(s2, evs) ← m; Ret (s2, [] ++ evs)) = m.
Proof. by destruct m as [[s2 evs]|f]. Qed.

(** A typed (non-recall) line is recorded, parsed and dispatched. *)
Lemma process_line_typed o s (buffer : string) :
  chomp buffer <> "" -> chomp buffer <> "!!" ->
  length (tokens (chomp buffer)) < length (args s) ->
  exists a,
    holds a (strip_marker (tokens (chomp buffer))) /\
    length a = length (args s) /\
    process_line o s buffer =
    main_dispatch o (set_args (set_history s (chomp buffer)) a)
      (background_marker (tokens (chomp buffer))).
Proof.
  intros Hne Hnr Hfit. unfold process_line, main_history.
  apply streq_false in Hne. apply streq_false in Hnr. rewrite Hne, Hnr.
  destruct (parse_input_fits (chomp buffer) (args (set_history s (chomp buffer))))
    as (a & Hp & Hh & Hl); [exact Hfit|].
  exists a. split; [exact Hh|]. split; [exact Hl|].
  rewrite Hp. cbn [mbind exec_bind]. apply bind_ret_nil.
Qed.

Lemma is_builtin_cases (t : string) :
  is_builtin t = true ->
  t = "exit" \/ t = "cd" \/ t = "pwd" \/ t = "help" \/ t = "history".
Proof.
  unfold is_builtin, builtin_names. rewrite bool_decide_eq_true.
  rewrite !elem_of_cons, elem_of_nil. tauto.
Qed.

(** Dispatch of a line whose first token is a built-in. *)
Lemma main_dispatch_builtin o s (background : bool) (first : string) l :
  holds (args s) (first :: l) ->
  is_builtin first = true ->
  main_dispatch o s background = Ret (run_builtin o s first (head l)).
Proof.
  intros Hh Hb. unfold main_dispatch, run_builtin, builtin_cd.
  rewrite (load_holds_0 _ _ Hh), (load_holds_1 _ _ _ Hh).
  cbn [mbind exec_bind head].
  destruct (is_builtin_cases _ Hb) as [->|[->|[->|[->| ->]]]]; reflexivity.
Qed.

(** A built-in creates no process and no pipe. *)
Lemma run_builtin_in_process o s (name : string) (arg1 : option string) :
  Forall (fun e => is_process_event e = false) (run_builtin o s name arg1).2.
Proof.
  unfold run_builtin, cd_to, chdir, builtin_pwd, builtin_help, builtin_history.
  repeat case_match; simpl; repeat constructor.
Qed.

Lemma strip_marker_builtin (first : string) l :
  is_builtin first = true ->
  background_marker (first :: l) = background_marker l /\
  strip_marker (first :: l) = first :: strip_marker l.
Proof.
  intros Hb. unfold strip_marker, background_marker.
  destruct l as [|t l].
  - simpl. destruct (is_builtin_cases _ Hb) as [->|[->|[->|[->| ->]]]]; done.
  - change (last (first :: t :: l)) with (last (t :: l)).
    split; [done|]. by destruct (last (t :: l)) as [x|]; [destruct (streq x "&")|].
Qed.

(** A pipeline line without background marker reaches [execute_pipe]
    with the index of its first separator. *)
Lemma process_line_pipeline o s (buffer : string) l r :
  tokens (chomp buffer) = l ++ "|" :: r ->
  "|" ∉ l ->
  background_marker (tokens (chomp buffer)) = false ->
  starts_with_builtin (tokens (chomp buffer)) = false ->
  length (tokens (chomp buffer)) < length (args s) ->
  exists a',
    process_line o s buffer =
    Ret (set_args (set_history s (chomp buffer)) a', pipeline_trace o l r) /\
    length a' = length (args s).
Proof.
  intros Htok Hfirst Hbg Hext Hfit.
  destruct (process_line_typed o s buffer) as (a & Hh & Hl & ->); [| |exact Hfit|].
  { intros E. rewrite E, tokens_empty_line in Htok. by destruct l. }
  { intros E. rewrite E, tokens_recall_line in Htok.
    destruct l as [|t [|t' l]]; discriminate. }
  unfold strip_marker in Hh. rewrite Hbg in *. rewrite Htok in *.
  set (s1 := set_args (set_history s (chomp buffer)) a).
  assert (Hh1 : holds (args s1) (l ++ "|" :: r)) by exact Hh.
  destruct (l ++ "|" :: r) as [|first rest] eqn:El; [by destruct l|].
  rewrite (main_dispatch_external o s1 false first rest Hh1 Hext).
  rewrite <- El in Hh1. destruct Hh1 as [junk Ha]. rewrite Ha.
  rewrite (find_pipe_first l r junk 0 Hfirst). cbn [mbind exec_bind].
  simpl plus.
  destruct (execute_pipe_holds o s1 l r) as (a' & -> & Hl').
  { exists junk. exact Ha. }
  exists a'. split; [reflexivity|]. simpl in Hl'. lia.
Qed.

(** Nothing after the history feature touches the history store. *)
Lemma main_dispatch_keeps_history o s (background : bool) s' evs :
  main_dispatch o s background = Ret (s', evs) ->
  history s' = history s /\ history_available s' = history_available s.
Proof.
  unfold main_dispatch, builtin_cd, cd_to, chdir, execute_pipe, launch.
  unfold mbind, exec_bind. intros H.
  repeat case_match; simplify_eq; done.
Qed.

Lemma process_line_history o s (buffer : string) s' evs :
  process_line o s buffer = Ret (s', evs) ->
  (history s' = history s /\ history_available s' = history_available s) \/
  (history s' = chomp buffer /\ chomp buffer <> "!!" /\
   history_available s' = true).
Proof.
  unfold process_line, main_history. intros H.
  destruct (streq (chomp buffer) ""); [left; by simplify_eq|].
  destruct (streq (chomp buffer) "!!") eqn:Er.
  - destruct (negb (history_available s)); [left; by simplify_eq|].
    destruct (parse_input _ _) as [[bg a]|]; [|discriminate].
    cbn [mbind exec_bind] in H.
    destruct (main_dispatch _ _ _) as [[s2 evs2]|] eqn:Ed; [|discriminate].
    cbn [mbind exec_bind] in H.
    apply main_dispatch_keeps_history in Ed. simpl in Ed.
    simplify_eq. by left.
  - destruct (parse_input _ _) as [[bg a]|]; [|discriminate].
    cbn [mbind exec_bind] in H.
    destruct (main_dispatch _ _ _) as [[s2 evs2]|] eqn:Ed; [|discriminate].
    cbn [mbind exec_bind] in H.
    apply main_dispatch_keeps_history in Ed. simpl in Ed.
    apply streq_false in Er. simplify_eq. right. by destruct Ed.
Qed.

(** A recall is the stored line typed again, after its echo. *)
Lemma process_line_recall o s (X : string) :
  history s = X -> history_available s = true ->
  X <> "" -> X <> "!!" -> chomp X = X ->
  process_line o s "!!" =
  '(s2, evs) ← process_line o s X; Ret (s2, Printf (X +:+ nl) :: evs).
Proof.
  intros Hh Ha Hne Hnr Hc. unfold process_line. rewrite Hc.
  change (chomp "!!") with "!!". change (streq "!!" "") with false.
  apply streq_false in Hne. rewrite Hne. unfold main_history.
  change (streq "!!" "!!") with true. apply streq_false in Hnr.
  rewrite Hnr, Ha. cbv iota. cbn [negb].
  replace (set_history s X) with s
    by (destruct s; simpl in *; by subst).
  rewrite Hh.
  destruct (parse_input X (args s)) as [[bg a]|]; [|reflexivity].
  cbn [mbind exec_bind].
  destruct (main_dispatch o (set_args s a) bg) as [[s2 evs]|]; reflexivity.
Qed.

End Dispatch.

(** * The stated properties *)

(** ** Tokenizer *)

(** C1.  On every line whose tokens and the terminating [NULL] fit
    the argument array: if the last token is the literal [&],
    [parse_input] returns the background flag [true] and leaves the
    token sequence without that final [&] in the array; otherwise it
    returns [false] and leaves the token sequence unchanged. *)
Theorem parse_input_background (input : string) (a : argv_array) :
  length (tokens input) < length a ->
  exists (bg : bool) (a' : argv_array),
    parse_input input a = Ret (bg, a') /\
    (last (tokens input) = Some "&" ->
     bg = true /\ read_argv a' = Ret (removelast (tokens input))) /\
    (last (tokens input) <> Some "&" ->
     bg = false /\ read_argv a' = Ret (tokens input)).
Proof.
  intros Hfit.
  destruct (parse_input_fits input a Hfit) as (a' & Hp & Hh & _).
  exists (background_marker (tokens input)), a'.
  split; [exact Hp|].
  apply read_argv_holds in Hh. revert Hh.
  unfold strip_marker, background_marker.
  destruct (last (tokens input)) as [t|] eqn:El.
  - destruct (streq t "&") eqn:Et; intros Hr.
    + split; [done|]. intros Hn. apply streq_true in Et. congruence.
    + split; [|done]. intros Hy. apply streq_false in Et. congruence.
  - intros Hr. split; [discriminate | done].
Qed.

Lemma parse_input_background_witness :
  length (tokens "sleep 5 &") < length (replicate MAX_ARGS (@None string)) /\
  exists (bg : bool) (a' : argv_array),
    parse_input "sleep 5 &" (replicate MAX_ARGS None) = Ret (bg, a') /\
    (last (tokens "sleep 5 &") = Some "&" ->
     bg = true /\ read_argv a' = Ret (removelast (tokens "sleep 5 &"))) /\
    (last (tokens "sleep 5 &") <> Some "&" ->
     bg = false /\ read_argv a' = Ret (tokens "sleep 5 &")).
Proof.
  split; [vm_compute; lia|].
  apply (parse_input_background "sleep 5 &" (replicate MAX_ARGS None)).
  vm_compute; lia.
Defined.

(** ** History *)

(** As long as only empty lines and recalls are entered, the loop stays
    in its initial state: the history is unpopulated. *)
Lemma run_lines_only_recalls (s0 : shell) (steps : list (os * string)) :
  history_available s0 = false ->
  Forall (fun step => chomp step.2 = "" \/ chomp step.2 = "!!") steps ->
  run_lines s0 steps = Ret s0.
Proof.
  intros Ha. induction 1 as [|[o buffer] steps Hb _ IH]; [reflexivity|].
  simpl. destruct (should_run s0); [|reflexivity].
  assert (Hp : process_line o s0 buffer = Ret (s0, [])
               \/ process_line o s0 buffer = Ret (s0, [ no_history_notice ])).
  { unfold process_line. simpl in Hb. destruct Hb as [-> | ->].
    - left. reflexivity.
    - right. unfold main_history. by rewrite Ha. }
  destruct Hp as [-> | ->]; exact IH.
Qed.

(** C3.  While the history is unpopulated, the line [!!] prints the
    no-history notice and nothing else happens: no event besides the
    notice, and the state of the shell (history, loop flag, arguments,
    directory) is the one before. *)
Theorem recall_without_history (o : os) (s : shell) (buffer : string) :
  history_available s = false ->
  chomp buffer = "!!" ->
  main_history s (chomp buffer) = NoHistory /\
  process_line o s buffer = Ret (s, [ no_history_notice ]).
Proof.
  intros Ha Hb. unfold process_line. rewrite Hb.
  unfold main_history. rewrite Ha. split; reflexivity.
Qed.

Lemma recall_without_history_witness :
  history_available fresh_shell = false /\
  chomp ("!!" +:+ nl) = "!!" /\
  process_line sample_os fresh_shell ("!!" +:+ nl) =
  Ret (fresh_shell, [ no_history_notice ]).
Proof.
  split; [reflexivity|]. split; [reflexivity|].
  refine (proj2
    (recall_without_history sample_os fresh_shell ("!!" +:+ nl) _ _));
    reflexivity.
Defined.

(** ** Pipelines *)

Lemma background_marker_true (toks : list string) :
  background_marker toks = true <-> last toks = Some "&".
Proof.
  unfold background_marker. destruct (last toks) as [t|]; [|done].
  rewrite streq_true. split; congruence.
Qed.

Lemma background_marker_false (toks : list string) :
  background_marker toks = false <-> last toks <> Some "&".
Proof.
  rewrite <- background_marker_true. by destruct (background_marker toks).
Qed.

Lemma output_pipeline_trace (o : os) (l r : list string) :
  output (pipeline_trace o l r) = pipe_diagnostics o.
Proof.
  unfold pipeline_trace, pipe_diagnostics.
  destruct (pipe_ok o), (fork_first o), (fork_second o); reflexivity.
Qed.

(** C4 fails as stated: on the line [| wc], whose left side is empty,
    the shell reports nothing and forks both children; the first one is
    handed an empty argument vector. *)
Lemma empty_pipeline_side_is_forked :
  tokens (chomp "| wc") = [] ++ "|" :: [ "wc" ] /\
  exists (s' : shell) (evs : list event),
    process_line sample_os fresh_shell "| wc" = Ret (s', evs) /\
    children evs = [ Child StdoutToPipe None [];
                     Child StdinFromPipe (Some "wc") [ "wc" ] ] /\
    output evs = [].
Proof.
  split; [reflexivity|].
  eexists _, _. split; [vm_compute; reflexivity|]. split; reflexivity.
Qed.

(** C4, amended.  On a line without background marker whose first
    token is not a built-in and whose first [|] has an empty left or
    right side, the shell makes no empty-side check: the only
    diagnostics it prints are those of a failed [pipe] or [fork] (none
    when they succeed), it does not fault and the loop goes on. *)
Theorem empty_pipeline_side_unchecked (o : os) (s : shell) (buffer : string)
    (l r : list string) :
  tokens (chomp buffer) = l ++ "|" :: r ->
  "|" ∉ l ->
  l = [] \/ r = [] ->
  last (tokens (chomp buffer)) <> Some "&" ->
  starts_with_builtin (tokens (chomp buffer)) = false ->
  length (tokens (chomp buffer)) < length (args s) ->
  exists (s' : shell) (evs : list event),
    process_line o s buffer = Ret (s', evs) /\
    output evs = pipe_diagnostics o /\
    should_run s' = should_run s.
Proof.
  intros Htok Hfirst _ Hbg Hext Hfit.
  apply background_marker_false in Hbg.
  destruct (process_line_pipeline o s buffer l r Htok Hfirst Hbg Hext Hfit)
    as (a' & Hp & _).
  eexists _, _. split; [exact Hp|].
  split; [apply output_pipeline_trace | reflexivity].
Qed.

Lemma empty_pipeline_side_unchecked_witness :
  tokens (chomp "ls |") = [ "ls" ] ++ "|" :: [] /\
  exists (s' : shell) (evs : list event),
    process_line sample_os fresh_shell "ls |" = Ret (s', evs) /\
    output evs = pipe_diagnostics sample_os /\
    should_run s' = should_run fresh_shell.
Proof.
  split; [reflexivity|].
  apply (empty_pipeline_side_unchecked sample_os fresh_shell "ls |" [ "ls" ] []).
  - reflexivity.
  - compute_done.
  - right; reflexivity.
  - vm_compute; discriminate.
  - reflexivity.
  - vm_compute; lia.
Defined.

(** C5 fails as stated: the line [pwd | wc &] has a pipe separator and
    a trailing background marker, yet the shell runs the built-in [pwd]
    and does not print the unsupported-combination message. *)
Lemma pwd_pipe_background_runs_pwd :
  tokens (chomp "pwd | wc &") = [ "pwd"; "|"; "wc"; "&" ] /\
  exists (s' : shell),
    process_line sample_os fresh_shell "pwd | wc &" =
    Ret (s', [ Printf ("/" +:+ nl) ]) /\
    ~ In pipe_background_error [ Printf ("/" +:+ nl) ].
Proof.
  split; [reflexivity|].
  eexists. split; [vm_compute; reflexivity|].
  intros [H|[]]. discriminate.
Qed.

(** C5, amended.  On every line whose first token is not a built-in
    and which has both a pipe separator and a trailing background
    marker, the shell prints the unsupported-combination message and
    does nothing else: no pipe, no child, and the loop goes on. *)
Theorem pipe_with_background_refused (o : os) (s : shell) (buffer : string) :
  "|" ∈ tokens (chomp buffer) ->
  last (tokens (chomp buffer)) = Some "&" ->
  starts_with_builtin (tokens (chomp buffer)) = false ->
  length (tokens (chomp buffer)) < length (args s) ->
  exists (s' : shell) (evs : list event),
    process_line o s buffer = Ret (s', evs) /\
    evs = [ pipe_background_error ] /\
    children evs = [] /\
    Forall (fun e => is_process_event e = false) evs /\
    should_run s' = should_run s.
Proof.
  intros Hpipe Hlast Hext Hfit.
  destruct (process_line_typed o s buffer) as (a & Hh & Hl & ->); [| |exact Hfit|].
  { intros E. rewrite E, tokens_empty_line in Hpipe. by apply elem_of_nil in Hpipe. }
  { intros E. rewrite E, tokens_recall_line in Hlast. discriminate. }
  pose proof (proj2 (background_marker_true _) Hlast) as Hbg.
  unfold strip_marker in Hh. rewrite Hbg in *.
  destruct (tokens (chomp buffer)) as [|t toks] using rev_ind;
    [discriminate|clear IHtoks].
  rewrite last_snoc in Hlast. injection Hlast as ->.
  rewrite removelast_last in Hh.
  apply elem_of_app in Hpipe as [Hpipe|Hpipe];
    [|apply list_elem_of_singleton in Hpipe; discriminate].
  apply list_elem_of_split_l in Hpipe as (l & r & -> & Hfirst).
  set (s1 := set_args (set_history s (chomp buffer)) a).
  assert (Hh1 : holds (args s1) (l ++ "|" :: r)) by exact Hh.
  destruct (l ++ "|" :: r) as [|first rest] eqn:El; [by destruct l|].
  rewrite (main_dispatch_external o s1 true first rest Hh1 Hext).
  rewrite <- El in Hh1. destruct Hh1 as [junk Ha]. rewrite Ha.
  rewrite (find_pipe_first l r junk 0 Hfirst). cbn [mbind exec_bind].
  eexists _, _. split; [reflexivity|]. split; [reflexivity|].
  split; [reflexivity|]. split; [repeat constructor | reflexivity].
Qed.

Lemma pipe_with_background_refused_witness :
  "|" ∈ tokens (chomp "ls | wc &") /\
  last (tokens (chomp "ls | wc &")) = Some "&" /\
  exists (s' : shell) (evs : list event),
    process_line sample_os fresh_shell "ls | wc &" = Ret (s', evs) /\
    evs = [ pipe_background_error ] /\
    children evs = [] /\
    Forall (fun e => is_process_event e = false) evs /\
    should_run s' = should_run fresh_shell.
Proof.
  split; [compute_done|]. split; [reflexivity|].
  apply (pipe_with_background_refused sample_os fresh_shell "ls | wc &").
  - compute_done.
  - reflexivity.
  - reflexivity.
  - vm_compute; lia.
Defined.

(** C8.  On a line without background marker whose first token is not
    a built-in, the split point is the first [|]: the left child is
    given the tokens before it, the right child all tokens after it,
    later [|] tokens included as ordinary arguments. *)
Theorem pipeline_splits_at_first_separator (o : os) (s : shell)
    (buffer : string) (l r : list string) (p1 p2 : positive) :
  tokens (chomp buffer) = l ++ "|" :: r ->
  "|" ∉ l ->
  starts_with_builtin (tokens (chomp buffer)) = false ->
  last (tokens (chomp buffer)) <> Some "&" ->
  length (tokens (chomp buffer)) < length (args s) ->
  pipe_ok o = true -> fork_first o = Some p1 -> fork_second o = Some p2 ->
  exists (s' : shell),
    process_line o s buffer =
    Ret (s', [ Pipe true;
               Fork p1 (Child StdoutToPipe (head l) l);
               Fork p2 (Child StdinFromPipe (head r) r);
               ClosePipe; Waitpid p1; Waitpid p2 ]).
Proof.
  intros Htok Hfirst Hext Hbg Hfit Hpipe Hf1 Hf2.
  apply background_marker_false in Hbg.
  destruct (process_line_pipeline o s buffer l r Htok Hfirst Hbg Hext Hfit)
    as (a' & Hp & _).
  eexists. rewrite Hp. unfold pipeline_trace.
  rewrite Hpipe, Hf1, Hf2. reflexivity.
Qed.

Lemma pipeline_splits_at_first_separator_witness :
  tokens (chomp "ls -l | sort | wc") =
    [ "ls"; "-l" ] ++ "|" :: [ "sort"; "|"; "wc" ] /\
  exists (s' : shell),
    process_line sample_os fresh_shell "ls -l | sort | wc" =
    Ret (s', [ Pipe true;
               Fork 101 (Child StdoutToPipe (Some "ls") [ "ls"; "-l" ]);
               Fork 102 (Child StdinFromPipe (Some "sort")
                           [ "sort"; "|"; "wc" ]);
               ClosePipe; Waitpid 101; Waitpid 102 ]).
Proof.
  split; [reflexivity|].
  apply (pipeline_splits_at_first_separator sample_os fresh_shell
           "ls -l | sort | wc" [ "ls"; "-l" ] [ "sort"; "|"; "wc" ]).
  - reflexivity.
  - compute_done.
  - reflexivity.
  - vm_compute; discriminate.
  - vm_compute; lia.
  - reflexivity.
  - reflexivity.
  - reflexivity.
Defined.

(** ** Capacity of the argument array *)

Lemma chomp_length (s : string) : String.length (chomp s) <= String.length s.
Proof.
  induction s as [|c s IH]; simpl; [lia|].
  destruct (is_newline c); simpl; lia.
Qed.

Lemma fgets_chars_length (k : nat) (stdin b rest : string) :
  fgets_chars k stdin = (b, rest) -> String.length b <= k.
Proof.
  revert stdin b rest. induction k as [|k IH]; intros stdin b rest H.
  - simpl in H. simplify_eq. simpl. lia.
  - simpl in H. destruct stdin as [|c stdin]; [simplify_eq; simpl; lia|].
    destruct (is_newline c); [simplify_eq; simpl; lia|].
    destruct (fgets_chars k stdin) as [b' rest'] eqn:E. simplify_eq.
    apply IH in E. simpl. lia.
Qed.

(** What [fgets] delivers holds at most [MAX_ARGS] tokens, and fewer
    unless the buffer is full. *)
Lemma fgets_token_count (stdin buffer rest : string) :
  fgets MAX_LINE stdin = Some (buffer, rest) ->
  length (tokens (chomp buffer)) <= MAX_ARGS /\
  (String.length buffer < MAX_LINE - 1 ->
   length (tokens (chomp buffer)) < MAX_ARGS).
Proof.
  unfold fgets. destruct stdin as [|c stdin]; [discriminate|].
  intros H. assert (Hf : fgets_chars (MAX_LINE - 1) (String c stdin)
                         = (buffer, rest)) by congruence.
  apply fgets_chars_length in Hf.
  pose proof (chomp_length buffer) as Hc.
  pose proof (tokens_length_bound (chomp buffer)) as Ht.
  unfold MAX_LINE, MAX_ARGS in *. simpl in Hf. lia.
Qed.

(** C6, at the input on which the code fails: a line of forty
    one-character tokens fills the buffer [fgets] delivers (79
    characters), and [parse_input] then stores the terminating [NULL] at
    index [MAX_ARGS] of an array of [MAX_ARGS] cells; the token sequence
    is not truncated. *)
Theorem forty_tokens_overflow (o : os) (s : shell) :
  length (args s) = MAX_ARGS ->
  fgets MAX_LINE (forty_tokens +:+ nl) = Some (forty_tokens, nl) /\
  length (tokens (chomp forty_tokens)) = MAX_ARGS /\
  process_line o s forty_tokens = Fault (StoreOutOfBounds MAX_ARGS MAX_ARGS) /\
  main_iteration o s (forty_tokens +:+ nl) =
  Fault (StoreOutOfBounds MAX_ARGS MAX_ARGS).
Proof.
  intros Hcap. split; [reflexivity|]. split; [reflexivity|].
  assert (Hp : process_line o s forty_tokens =
               Fault (StoreOutOfBounds MAX_ARGS MAX_ARGS)).
  { unfold process_line.
    change (chomp forty_tokens) with forty_tokens.
    change (streq forty_tokens "") with false.
    unfold main_history. change (streq forty_tokens "!!") with false.
    cbv iota. rewrite parse_input_overflow.
    - simpl. by rewrite Hcap.
    - simpl. rewrite Hcap. reflexivity. }
  split; [exact Hp|].
  unfold main_iteration.
  change (fgets MAX_LINE (forty_tokens +:+ nl)) with (Some (forty_tokens, nl)).
  cbv iota. change (c_string forty_tokens) with forty_tokens. by rewrite Hp.
Qed.

Lemma forty_tokens_overflow_witness :
  length (args fresh_shell) = MAX_ARGS /\
  process_line sample_os fresh_shell forty_tokens =
  Fault (StoreOutOfBounds MAX_ARGS MAX_ARGS).
Proof.
  split; [reflexivity|].
  refine (proj1 (proj2 (proj2
    (forty_tokens_overflow sample_os fresh_shell _)))).
  reflexivity.
Defined.

(** ** Built-ins *)

(** C7, at the input on which the code fails: a bare [cd] whose
    [chdir] to the home directory fails leaves the directory as it was,
    the loop goes on, and nothing is printed (the result of the call is
    dropped). *)
Theorem bare_cd_failure_is_silent (o : os) (s : shell) :
  1 < length (args s) ->
  chdir_to o (cwd s) (getenv_HOME o) = None ->
  exists (s' : shell) (evs : list event),
    process_line o s "cd" = Ret (s', evs) /\
    evs = [ Chdir (getenv_HOME o) false ] /\
    output evs = [] /\
    cwd s' = cwd s /\ should_run s' = should_run s.
Proof.
  intros Hfit Hfail.
  destruct (process_line_typed o s "cd") as (a & Hh & Hl & ->);
    [discriminate | discriminate | exact Hfit |].
  change (strip_marker (tokens (chomp "cd"))) with [ "cd" ] in Hh.
  set (s1 := set_args (set_history s (chomp "cd")) a).
  rewrite (main_dispatch_builtin o s1 _ "cd" [] Hh eq_refl).
  unfold run_builtin, cd_to, chdir. cbn [streq]. simpl.
  rewrite Hfail. eexists _, _. repeat split; reflexivity.
Qed.

Lemma bare_cd_failure_is_silent_witness :
  1 < length (args fresh_shell) /\
  chdir_to no_home_os (cwd fresh_shell) (getenv_HOME no_home_os) = None /\
  exists (s' : shell) (evs : list event),
    process_line no_home_os fresh_shell "cd" = Ret (s', evs) /\
    evs = [ Chdir (getenv_HOME no_home_os) false ] /\
    output evs = [] /\
    cwd s' = cwd fresh_shell /\ should_run s' = should_run fresh_shell.
Proof.
  split; [vm_compute; lia|]. split; [reflexivity|].
  apply (bare_cd_failure_is_silent no_home_os fresh_shell);
    [vm_compute; lia | reflexivity].
Defined.

(** C10.  When the first token of a line is a built-in name, the
    built-in runs in the shell's own process on that token and (for
    [cd]) the second one; the rest of the line, any [|] included, plays
    no part: no pipe and no child process is created. *)
Theorem builtin_precedes_pipe (o : os) (s : shell) (buffer : string)
    (first : string) (rest : list string) :
  tokens (chomp buffer) = first :: rest ->
  is_builtin first = true ->
  length (tokens (chomp buffer)) < length (args s) ->
  exists (a : argv_array) (s' : shell) (evs : list event),
    process_line o s buffer = Ret (s', evs) /\
    (s', evs) = run_builtin o (set_args (set_history s (chomp buffer)) a)
                  first (head (strip_marker rest)) /\
    children evs = [] /\
    Forall (fun e => is_process_event e = false) evs.
Proof.
  intros Htok Hb Hfit.
  destruct (process_line_typed o s buffer) as (a & Hh & Hl & ->); [| |exact Hfit|].
  { intros E. rewrite E in Htok. discriminate. }
  { intros E. rewrite E, tokens_recall_line in Htok.
    injection Htok as <- _. discriminate. }
  rewrite Htok in *.
  destruct (strip_marker_builtin first rest Hb) as [_ Hs]. rewrite Hs in Hh.
  exists a.
  set (s1 := set_args (set_history s (chomp buffer)) a).
  rewrite (main_dispatch_builtin o s1 _ first _ Hh Hb).
  pose proof (run_builtin_in_process o s1 first (head (strip_marker rest)))
    as Hin.
  destruct (run_builtin o s1 first (head (strip_marker rest))) as [s' evs].
  exists s', evs. split; [reflexivity|]. split; [reflexivity|].
  split; [|exact Hin]. simpl in Hin. clear -Hin.
  induction evs as [|e evs IH]; [reflexivity|].
  inversion Hin as [|? ? He Hr]; subst.
  unfold children. destruct e; try discriminate; by apply IH.
Qed.

Lemma builtin_precedes_pipe_witness :
  tokens (chomp "cd /tmp | wc") = "cd" :: [ "/tmp"; "|"; "wc" ] /\
  exists (a : argv_array) (s' : shell) (evs : list event),
    process_line sample_os fresh_shell "cd /tmp | wc" = Ret (s', evs) /\
    (s', evs) =
      run_builtin sample_os (set_args (set_history fresh_shell (chomp "cd /tmp | wc")) a)
        "cd" (head (strip_marker [ "/tmp"; "|"; "wc" ])) /\
    children evs = [] /\
    Forall (fun e => is_process_event e = false) evs.
Proof.
  split; [reflexivity|].
  apply (builtin_precedes_pipe sample_os fresh_shell "cd /tmp | wc"
           "cd" [ "/tmp"; "|"; "wc" ]).
  - reflexivity.
  - reflexivity.
  - vm_compute; lia.
Defined.

(** ** The history store along the loop *)

Lemma run_lines_history_invariant (s0 : shell) (steps : list (os * string))
    (s : shell) :
  history s0 <> "!!" -> run_lines s0 steps = Ret s -> history s <> "!!".
Proof.
  revert s0. induction steps as [|[o buffer] steps IH]; intros s0 H0 Hrun.
  - simpl in Hrun. by simplify_eq.
  - simpl in Hrun. destruct (should_run s0); [|by simplify_eq].
    destruct (process_line o s0 buffer) as [[s1 evs]|] eqn:Ep; [|discriminate].
    cbn [mbind exec_bind] in Hrun. apply (IH s1); [|exact Hrun].
    destruct (process_line_history _ _ _ _ _ Ep) as [[-> _]|(-> & Hne & _)];
      assumption.
Qed.

(** C9.  In every state the loop reaches from the start, the stored
    history is not the literal [!!]; so the line a recall substitutes
    is never [!!] itself, and the recall leaves the state as it is. *)
Theorem history_never_recall_literal (junk : argv_array) (dir : string)
    (steps : list (os * string)) (s : shell) :
  run_lines (initial junk dir) steps = Ret s ->
  history s <> "!!" /\
  forall (line : string) (s' : shell) (echo : list event),
    main_history s "!!" = Interpret line s' echo ->
    line <> "!!" /\ s' = s.
Proof.
  intros Hrun.
  assert (Hinv : history s <> "!!").
  { apply (run_lines_history_invariant (initial junk dir) steps);
      [discriminate | exact Hrun]. }
  split; [exact Hinv|].
  intros line s' echo. unfold main_history. cbn [streq].
  change (streq "!!" "!!") with true. cbv iota.
  destruct (negb (history_available s)); [discriminate|].
  intros H. simplify_eq. by split.
Qed.

Lemma history_never_recall_literal_witness :
  exists (s : shell),
    run_lines fresh_shell [ (sample_os, "ls"); (sample_os, "!!") ] = Ret s /\
    history s <> "!!".
Proof.
  eexists. split; [vm_compute; reflexivity|].
  refine (proj1 (history_never_recall_literal (replicate MAX_ARGS None) "/"
                   [ (sample_os, "ls"); (sample_os, "!!") ] _ _)).
  vm_compute; reflexivity.
Defined.

(** * Further properties of the code *)

(** ** The array code and the argument vector *)

Section Vector.

Implicit Types (a junk : argv_array) (toks l r : list string).
Implicit Types (o : os) (s : shell).

Lemma pipe_split l :
  "|" ∈ l ->
  l = before_pipe l ++ "|" :: after_pipe l /\ "|" ∉ before_pipe l.
Proof.
  induction l as [|t l IH]; intros Hin; [by apply elem_of_nil in Hin|].
  cbn [before_pipe after_pipe]. destruct (streq t "|") eqn:E.
  - apply streq_true in E as ->. split; [reflexivity | apply not_elem_of_nil].
  - apply streq_false in E. apply elem_of_cons in Hin as [Hin|Hin]; [congruence|].
    destruct (IH Hin) as [Heq Hnot]. split.
    + simpl. by rewrite <- Heq.
    + apply not_elem_of_cons. by split.
Qed.

Lemma pipe_split_first l r :
  "|" ∉ l -> before_pipe (l ++ "|" :: r) = l /\ after_pipe (l ++ "|" :: r) = r.
Proof.
  induction l as [|t l IH]; intros Hnot; [done|].
  apply not_elem_of_cons in Hnot as [Hne Hnot].
  cbn [app before_pipe after_pipe].
  destruct (streq t "|") eqn:E; [apply streq_true in E; congruence|].
  destruct (IH Hnot) as [-> ->]. done.
Qed.

Lemma launch_holds o s (first : string) l (background : bool) :
  holds (args s) (first :: l) ->
  launch o s first background = Ret (launch_trace o (first :: l) background).
Proof.
  intros Hh. unfold launch, launch_trace.
  destruct (fork_first o) as [pid|]; [|reflexivity].
  rewrite (read_argv_holds _ _ Hh). cbn [mbind exec_bind].
  by destruct background.
Qed.

Lemma run_builtin_args o s (name : string) (arg1 : option string) :
  args (run_builtin o s name arg1).1 = args s /\
  history (run_builtin o s name arg1).1 = history s /\
  history_available (run_builtin o s name arg1).1 = history_available s.
Proof.
  unfold run_builtin, cd_to, chdir.
  repeat case_match; simplify_eq; done.
Qed.

(** [main_dispatch] on an array that holds the vector [l] does what
    [dispatch] reads off [l]; of the array at most the cell of the first
    [|] changes. *)
Lemma main_dispatch_holds o s l (background : bool) :
  holds (args s) l ->
  exists a',
    length a' = length (args s) /\
    main_dispatch o s background =
    Ret (set_args (dispatch o s l background).1 a',
         (dispatch o s l background).2).
Proof.
  intros Hh. destruct l as [|first rest].
  - exists (args s). split; [reflexivity|].
    unfold main_dispatch. rewrite (load_holds_0 _ _ Hh). by destruct s.
  - unfold dispatch. destruct (is_builtin first) eqn:Hb.
    + exists (args s). split; [reflexivity|].
      rewrite (main_dispatch_builtin o s background first rest Hh Hb).
      pose proof (run_builtin_args o s first (head rest)) as (Ha & _).
      destruct (run_builtin o s first (head rest)) as [s' evs].
      simpl in *. rewrite <- Ha. by destruct s'.
    + rewrite (main_dispatch_external o s background first rest Hh Hb).
      destruct (bool_decide ("|" ∈ first :: rest)) eqn:Hp.
      * apply bool_decide_eq_true in Hp.
        destruct (pipe_split _ Hp) as [Heq Hnot].
        set (l := before_pipe (first :: rest)) in *.
        set (r := after_pipe (first :: rest)) in *.
        rewrite Heq in Hh. pose proof Hh as [junk Ha].
        assert (Hf : find_pipe (args s) 0 = Ret (Some (length l)))
          by (rewrite Ha; apply (find_pipe_first l r junk 0 Hnot)).
        rewrite Hf. cbn [mbind exec_bind]. destruct background.
        -- exists (args s). split; [reflexivity|]. by destruct s.
        -- destruct (execute_pipe_holds o s l r Hh) as (a' & -> & Hl).
           exists a'. split; [exact Hl | reflexivity].
      * apply bool_decide_eq_false in Hp.
        pose proof Hh as [junk Ha].
        assert (Hf : find_pipe (args s) 0 = Ret None)
          by (rewrite Ha; apply (find_pipe_absent _ junk 0 Hp)).
        rewrite Hf. cbn [mbind exec_bind].
        rewrite (launch_holds o s first rest background Hh).
        cbn [mbind exec_bind]. exists (args s). split; [reflexivity|].
        by destruct s.
Qed.

Lemma dispatch_keeps_history o s l (background : bool) :
  history (dispatch o s l background).1 = history s /\
  history_available (dispatch o s l background).1 = history_available s.
Proof.
  unfold dispatch. destruct l as [|first rest]; [done|].
  destruct (is_builtin first); [apply run_builtin_args|].
  by repeat case_match.
Qed.

(** [process_line] on a line that is not empty, once the line that is
    parsed fits the array. *)
Lemma process_line_submitted o s (buffer : string) :
  chomp buffer <> "" ->
  (chomp buffer = "!!" -> history_available s = true) ->
  length (tokens (submitted s buffer)) < length (args s) ->
  let s1 := if streq (chomp buffer) "!!" then s
            else set_history s (chomp buffer) in
  let echo := if streq (chomp buffer) "!!"
              then [ Printf (history s +:+ nl) ] else [] in
  let toks := tokens (submitted s buffer) in
  exists a a',
    holds a (strip_marker toks) /\
    length a' = length (args s) /\
    process_line o s buffer =
    Ret (set_args (dispatch o (set_args s1 a) (strip_marker toks)
                     (background_marker toks)).1 a',
         echo ++ (dispatch o (set_args s1 a) (strip_marker toks)
                    (background_marker toks)).2).
Proof.
  intros Hne Hav Hfit. unfold submitted in *. cbv zeta.
  unfold process_line, main_history.
  apply streq_false in Hne. rewrite Hne.
  destruct (streq (chomp buffer) "!!") eqn:Er.
  - apply streq_true in Er. rewrite (Hav Er). cbn [negb].
    destruct (parse_input_fits (history s) (args s) Hfit) as (a & -> & Hh & Hl).
    cbn [mbind exec_bind].
    destruct (main_dispatch_holds o (set_args s a) _
                (background_marker (tokens (history s))) Hh)
      as (a' & Hl' & ->).
    cbn [mbind exec_bind]. exists a, a'. split; [exact Hh|].
    split; [simpl in Hl'; lia | reflexivity].
  - destruct (parse_input_fits (chomp buffer)
                (args (set_history s (chomp buffer))) Hfit)
      as (a & -> & Hh & Hl).
    cbn [mbind exec_bind].
    destruct (main_dispatch_holds o (set_args (set_history s (chomp buffer)) a)
                _ (background_marker (tokens (chomp buffer))) Hh)
      as (a' & Hl' & ->).
    cbn [mbind exec_bind]. exists a, a'. split; [exact Hh|].
    split; [simpl in Hl'; simpl in Hl; lia | reflexivity].
Qed.

End Vector.

(** ** Tokens *)

Lemma take_token_no_delim (s t r : string) :
  take_token s = (t, r) -> no_delim t = true.
Proof.
  revert t r. induction s as [|c s IH]; simpl; intros t r H.
  - by simplify_eq.
  - destruct (is_delim c) eqn:Ec; [by simplify_eq|].
    destruct (take_token s) as [t' r'] eqn:E. simplify_eq.
    simpl. rewrite Ec. simpl. eapply IH. reflexivity.
Qed.

Lemma strtok_token (s t r : string) : strtok s = Some (t, r) -> token t.
Proof.
  intros H. split; [by apply (strtok_nonempty s t r)|].
  unfold strtok in H. destruct (skip_delims s) as [|c s'] eqn:E; [discriminate|].
  assert (H1 : take_token (String c s') = (t, r)) by congruence.
  by apply take_token_no_delim in H1.
Qed.

(** X1.  A buffer of [n] characters is split into at most
    [(n + 1) / 2] tokens: every token but the last needs a character of
    its own and a delimiter after it. *)
Theorem token_count_bound (input : string) :
  2 * length (tokens input) <= String.length input + 1.
Proof. exact (tokens_length_bound input). Qed.

(** X2.  Every token [parse_input] stores is a non-empty string
    without blank, tab or newline. *)
Theorem tokens_are_delimiter_free (input : string) :
  Forall token (tokens input).
Proof.
  remember (String.length input) as n eqn:Hn.
  revert input Hn. induction (lt_wf n) as [n _ IH]; intros input ->.
  rewrite tokens_unfold. destruct (strtok input) as [[t r]|] eqn:E; [|constructor].
  constructor; [by apply (strtok_token input t r)|].
  eapply IH; [|reflexivity]. eapply strtok_shorter; eassumption.
Qed.

(** X3.  Round trip: writing any sequence of such tokens on a line,
    one blank between neighbours, and tokenizing the line gives the
    sequence back. *)
Theorem tokens_of_unwords (ws : list string) :
  Forall token ws -> tokens (unwords ws) = ws.
Proof. exact (tokens_unwords ws). Qed.

Lemma tokens_of_unwords_witness :
  Forall token [ "ls"; "-l"; "|"; "wc"; "&" ] /\
  tokens (unwords [ "ls"; "-l"; "|"; "wc"; "&" ]) =
  [ "ls"; "-l"; "|"; "wc"; "&" ].
Proof.
  assert (H : Forall token [ "ls"; "-l"; "|"; "wc"; "&" ])
    by (repeat constructor; discriminate).
  split; [exact H|]. exact (tokens_of_unwords _ H).
Defined.

(** ** Bounds of the argument array *)

(** X4.  [parse_input] stays inside an array of [k] cells exactly when
    the line has fewer than [k] tokens, and then leaves the size of the
    array as it was; with [k] tokens or more it does not truncate but
    stores at index [k], one cell past the end. *)
Theorem parse_input_bounds (input : string) (a : argv_array) :
  (length (tokens input) < length a ->
   exists (bg : bool) (a' : argv_array),
     parse_input input a = Ret (bg, a') /\ length a' = length a) /\
  (length a <= length (tokens input) ->
   parse_input input a = Fault (StoreOutOfBounds (length a) (length a))).
Proof.
  split.
  - intros Hfit. destruct (parse_input_fits input a Hfit) as (a' & Hp & _ & Hl).
    by eexists _, a'.
  - apply parse_input_overflow.
Qed.

(** ** Lines that are typed *)

Section Typed.

Implicit Types (a junk : argv_array) (toks l r : list string).
Implicit Types (o : os) (s : shell).

Lemma removelast_head (t : string) l :
  removelast (t :: l) = [] \/ exists l', removelast (t :: l) = t :: l'.
Proof. destruct l as [|t' l]; [by left | right; by eexists]. Qed.

Lemma strip_marker_head (t : string) l :
  strip_marker (t :: l) = [] \/ exists l', strip_marker (t :: l) = t :: l'.
Proof.
  unfold strip_marker. destruct (background_marker (t :: l)).
  - apply removelast_head.
  - right. by eexists.
Qed.

Lemma elem_of_removelast (x : string) l : x ∈ removelast l -> x ∈ l.
Proof.
  induction l as [|t l IH]; [done|]. destruct l as [|t' l].
  - simpl. intros H. by apply elem_of_nil in H.
  - change (removelast (t :: t' :: l)) with (t :: removelast (t' :: l)).
    rewrite !(elem_of_cons _ x t). intros [->|H]; [by left | right; by apply IH].
Qed.

Lemma elem_of_strip_marker (x : string) l : x ∈ strip_marker l -> x ∈ l.
Proof.
  unfold strip_marker. destruct (background_marker l); [|done].
  apply elem_of_removelast.
Qed.

(** A typed line that fits does what [dispatch] reads off its tokens,
    in the state that has the line as its history. *)
Lemma process_line_typed_dispatch o s (buffer : string) :
  chomp buffer <> "" -> chomp buffer <> "!!" ->
  length (tokens (chomp buffer)) < length (args s) ->
  exists a a',
    length a' = length (args s) /\
    process_line o s buffer =
    Ret (set_args
           (dispatch o (set_args (set_history s (chomp buffer)) a)
              (strip_marker (tokens (chomp buffer)))
              (background_marker (tokens (chomp buffer)))).1 a',
         (dispatch o (set_args (set_history s (chomp buffer)) a)
            (strip_marker (tokens (chomp buffer)))
            (background_marker (tokens (chomp buffer)))).2).
Proof.
  intros Hne Hnr Hfit.
  destruct (process_line_typed o s buffer Hne Hnr Hfit) as (a & Hh & Hl & ->).
  destruct (main_dispatch_holds o (set_args (set_history s (chomp buffer)) a)
              _ (background_marker (tokens (chomp buffer))) Hh)
    as (a' & Hl' & ->).
  exists a, a'. split; [simpl in Hl'; lia | reflexivity].
Qed.

(** The standard command execution of a typed line. *)
Lemma process_line_launch o s (buffer : string) :
  chomp buffer <> "!!" ->
  strip_marker (tokens (chomp buffer)) <> [] ->
  starts_with_builtin (tokens (chomp buffer)) = false ->
  "|" ∉ tokens (chomp buffer) ->
  length (tokens (chomp buffer)) < length (args s) ->
  exists a',
    head (strip_marker (tokens (chomp buffer))) = head (tokens (chomp buffer)) /\
    process_line o s buffer =
    Ret (set_args (set_history s (chomp buffer)) a',
         launch_trace o (strip_marker (tokens (chomp buffer)))
           (background_marker (tokens (chomp buffer)))).
Proof.
  intros Hnr Hne Hext Hpipe Hfit.
  destruct (process_line_typed_dispatch o s buffer) as (a & a' & Hl & ->);
    [|exact Hnr|exact Hfit|].
  { intros E. rewrite E in Hne. by apply Hne. }
  exists a'.
  assert (Hp : "|" ∉ strip_marker (tokens (chomp buffer))).
  { intros H. by apply Hpipe, elem_of_strip_marker. }
  destruct (tokens (chomp buffer)) as [|first rest]; [by destruct Hne|].
  destruct (strip_marker_head first rest) as [E|[l' E]]; [by destruct Hne|].
  rewrite E in *. split; [reflexivity|].
  unfold dispatch. simpl in Hext. rewrite Hext.
  rewrite (bool_decide_eq_false_2 _ Hp). reflexivity.
Qed.

End Typed.

(** X5.  A line that is not empty but holds no argument (only blanks
    and tabs, or a lone [&]) runs nothing and prints nothing; yet it
    replaces the stored history line. *)
Theorem blank_line_is_recorded (o : os) (s : shell) (buffer : string) :
  chomp buffer <> "" ->
  strip_marker (tokens (chomp buffer)) = [] ->
  length (tokens (chomp buffer)) < length (args s) ->
  exists (a' : argv_array),
    process_line o s buffer =
    Ret (set_args (set_history s (chomp buffer)) a', []).
Proof.
  intros Hne Hnil Hfit.
  destruct (process_line_typed_dispatch o s buffer) as (a & a' & Hl & ->);
    [exact Hne| |exact Hfit|].
  { intros E. rewrite E in Hnil. discriminate. }
  rewrite Hnil. exists a'. reflexivity.
Qed.

Lemma blank_line_is_recorded_witness :
  chomp "   " <> "" /\
  exists (a' : argv_array),
    process_line sample_os fresh_shell "   " =
    Ret (set_args (set_history fresh_shell (chomp "   ")) a', []).
Proof.
  split; [discriminate|].
  apply (blank_line_is_recorded sample_os fresh_shell "   ");
    [discriminate | reflexivity | vm_compute; lia].
Defined.

(** X6.  A typed line without [|] token whose first token is not a
    built-in forks exactly one child, which calls [execvp] on the first
    token with the tokens (less a trailing [&]) as arguments.  Without
    trailing [&] the shell waits for that child; with it the shell does
    not wait but prints the child's process id. *)
Theorem external_command_is_forked (o : os) (s : shell) (buffer : string)
    (pid : positive) :
  chomp buffer <> "!!" ->
  strip_marker (tokens (chomp buffer)) <> [] ->
  starts_with_builtin (tokens (chomp buffer)) = false ->
  "|" ∉ tokens (chomp buffer) ->
  length (tokens (chomp buffer)) < length (args s) ->
  fork_first o = Some pid ->
  exists (a' : argv_array),
    process_line o s buffer =
    Ret (set_args (set_history s (chomp buffer)) a',
         Fork pid (Child Inherited (head (tokens (chomp buffer)))
                     (strip_marker (tokens (chomp buffer)))) ::
         (if background_marker (tokens (chomp buffer))
          then [ Printf ("[Process " +:+ pretty (Z.pos pid) +:+
                         " running in background]" +:+ nl) ]
          else [ Waitpid pid ])).
Proof.
  intros Hnr Hne Hext Hpipe Hfit Hfork.
  destruct (process_line_launch o s buffer Hnr Hne Hext Hpipe Hfit)
    as (a' & Hhead & ->).
  exists a'. unfold launch_trace. rewrite Hfork, Hhead.
  by destruct (background_marker _).
Qed.

Lemma external_command_is_forked_witness :
  exists (a' : argv_array),
    process_line sample_os fresh_shell "sleep 5 &" =
    Ret (set_args (set_history fresh_shell (chomp "sleep 5 &")) a',
         Fork 101 (Child Inherited (head (tokens (chomp "sleep 5 &")))
                     (strip_marker (tokens (chomp "sleep 5 &")))) ::
         (if background_marker (tokens (chomp "sleep 5 &"))
          then [ Printf ("[Process " +:+ pretty (Z.pos 101) +:+
                         " running in background]" +:+ nl) ]
          else [ Waitpid 101 ])).
Proof.
  apply (external_command_is_forked sample_os fresh_shell "sleep 5 &" 101).
  - discriminate.
  - discriminate.
  - reflexivity.
  - compute_done.
  - vm_compute; lia.
  - reflexivity.
Defined.

(** X7.  When [fork] fails for such a line, the shell reports
    [Fork failed], creates no child and goes on with the loop. *)
Theorem external_command_fork_failure (o : os) (s : shell) (buffer : string) :
  chomp buffer <> "!!" ->
  strip_marker (tokens (chomp buffer)) <> [] ->
  starts_with_builtin (tokens (chomp buffer)) = false ->
  "|" ∉ tokens (chomp buffer) ->
  length (tokens (chomp buffer)) < length (args s) ->
  fork_first o = None ->
  exists (s' : shell),
    process_line o s buffer = Ret (s', [ ForkFailed; Perror "Fork failed" ]) /\
    should_run s' = should_run s.
Proof.
  intros Hnr Hne Hext Hpipe Hfit Hfork.
  destruct (process_line_launch o s buffer Hnr Hne Hext Hpipe Hfit)
    as (a' & _ & ->).
  eexists. unfold launch_trace. rewrite Hfork. split; reflexivity.
Qed.

Lemma external_command_fork_failure_witness :
  fork_first no_fork_os = None /\
  exists (s' : shell),
    process_line no_fork_os fresh_shell "ls -l" =
    Ret (s', [ ForkFailed; Perror "Fork failed" ]) /\
    should_run s' = should_run fresh_shell.
Proof.
  split; [reflexivity|].
  apply (external_command_fork_failure no_fork_os fresh_shell "ls -l").
  - discriminate.
  - discriminate.
  - reflexivity.
  - compute_done.
  - vm_compute; lia.
  - reflexivity.
Defined.

(** ** Failures while a pipeline is set up *)

(** X8.  When [pipe] fails, or the first [fork] fails, a pipeline line
    creates no child at all; the shell prints the one diagnostic
    ([Pipe failed], [Fork failed]) and goes on with the loop. *)
Theorem pipeline_setup_failure (o : os) (s : shell) (buffer : string)
    (l r : list string) :
  tokens (chomp buffer) = l ++ "|" :: r ->
  "|" ∉ l ->
  starts_with_builtin (tokens (chomp buffer)) = false ->
  last (tokens (chomp buffer)) <> Some "&" ->
  length (tokens (chomp buffer)) < length (args s) ->
  pipe_ok o = false \/ fork_first o = None ->
  exists (s' : shell) (evs : list event),
    process_line o s buffer = Ret (s', evs) /\
    children evs = [] /\
    output evs =
      [ Perror (if pipe_ok o then "Fork failed" else "Pipe failed") ] /\
    should_run s' = should_run s.
Proof.
  intros Htok Hfirst Hext Hbg Hfit Hfail.
  apply background_marker_false in Hbg.
  destruct (process_line_pipeline o s buffer l r Htok Hfirst Hbg Hext Hfit)
    as (a' & Hp & _).
  eexists _, _. split; [exact Hp|]. unfold pipeline_trace.
  destruct (pipe_ok o) eqn:Ep; cbn [negb].
  - destruct Hfail as [?| ->]; [discriminate|]. repeat split.
  - repeat split.
Qed.

Lemma pipeline_setup_failure_witness :
  pipe_ok no_pipe_os = false /\
  exists (s' : shell) (evs : list event),
    process_line no_pipe_os fresh_shell "ls | wc" = Ret (s', evs) /\
    children evs = [] /\
    output evs =
      [ Perror (if pipe_ok no_pipe_os then "Fork failed" else "Pipe failed") ] /\
    should_run s' = should_run fresh_shell.
Proof.
  split; [reflexivity|].
  apply (pipeline_setup_failure no_pipe_os fresh_shell "ls | wc"
           [ "ls" ] [ "wc" ]).
  - reflexivity.
  - compute_done.
  - reflexivity.
  - vm_compute; discriminate.
  - vm_compute; lia.
  - left; reflexivity.
Defined.

(** X9.  When the second [fork] fails, the left child has already been
    forked with its output on the pipe; [execute_pipe] returns after the
    diagnostic without waiting for that child and without closing the
    pipe in the shell. *)
Theorem pipeline_second_fork_failure (o : os) (s : shell) (buffer : string)
    (l r : list string) (p1 : positive) :
  tokens (chomp buffer) = l ++ "|" :: r ->
  "|" ∉ l ->
  starts_with_builtin (tokens (chomp buffer)) = false ->
  last (tokens (chomp buffer)) <> Some "&" ->
  length (tokens (chomp buffer)) < length (args s) ->
  pipe_ok o = true -> fork_first o = Some p1 -> fork_second o = None ->
  exists (s' : shell),
    process_line o s buffer =
    Ret (s', [ Pipe true; Fork p1 (Child StdoutToPipe (head l) l);
               ForkFailed; Perror "Fork failed" ]) /\
    should_run s' = should_run s.
Proof.
  intros Htok Hfirst Hext Hbg Hfit Hpipe Hf1 Hf2.
  apply background_marker_false in Hbg.
  destruct (process_line_pipeline o s buffer l r Htok Hfirst Hbg Hext Hfit)
    as (a' & Hp & _).
  eexists. rewrite Hp. unfold pipeline_trace. rewrite Hpipe, Hf1, Hf2.
  split; reflexivity.
Qed.

Lemma pipeline_second_fork_failure_witness :
  fork_second one_fork_os = None /\
  exists (s' : shell),
    process_line one_fork_os fresh_shell "ls | wc" =
    Ret (s', [ Pipe true; Fork 101 (Child StdoutToPipe (head [ "ls" ]) [ "ls" ]);
               ForkFailed; Perror "Fork failed" ]) /\
    should_run s' = should_run fresh_shell.
Proof.
  split; [reflexivity|].
  apply (pipeline_second_fork_failure one_fork_os fresh_shell "ls | wc"
           [ "ls" ] [ "wc" ] 101).
  - reflexivity.
  - compute_done.
  - reflexivity.
  - vm_compute; discriminate.
  - vm_compute; lia.
  - reflexivity.
  - reflexivity.
  - reflexivity.
Defined.

(** ** Built-ins on a typed line *)

Section Builtins.

Implicit Types (a : argv_array) (o : os) (s : shell).

Lemma process_line_builtin o s (buffer first : string) (rest : list string) :
  tokens (chomp buffer) = first :: rest ->
  is_builtin first = true ->
  length (tokens (chomp buffer)) < length (args s) ->
  exists a a',
    process_line o s buffer =
    Ret (set_args
           (run_builtin o (set_args (set_history s (chomp buffer)) a) first
              (head (strip_marker rest))).1 a',
         (run_builtin o (set_args (set_history s (chomp buffer)) a) first
            (head (strip_marker rest))).2).
Proof.
  intros Htok Hb Hfit.
  destruct (process_line_typed_dispatch o s buffer) as (a & a' & Hl & ->);
    [| |exact Hfit|].
  { intros E. rewrite E in Htok. discriminate. }
  { intros E. rewrite E, tokens_recall_line in Htok.
    injection Htok as <- _. discriminate. }
  rewrite Htok. destruct (strip_marker_builtin first rest Hb) as [_ ->].
  exists a, a'. unfold dispatch. rewrite Hb. reflexivity.
Qed.

Lemma run_lines_stopped s (steps : list (os * string)) :
  should_run s = false -> run_lines s steps = Ret s.
Proof. intros H. destruct steps as [|[o b] steps]; simpl; by rewrite ?H. Qed.

End Builtins.

(** X10.  [exit], whatever follows it on the line, clears the loop
    flag and does nothing else; the line is still recorded as history,
    and no line after it is processed. *)
Theorem exit_stops_the_loop (o : os) (s : shell) (buffer : string)
    (rest : list string) (later : list (os * string)) :
  tokens (chomp buffer) = "exit" :: rest ->
  length (tokens (chomp buffer)) < length (args s) ->
  should_run s = true ->
  exists (s' : shell),
    process_line o s buffer = Ret (s', []) /\
    should_run s' = false /\
    history s' = chomp buffer /\
    cwd s' = cwd s /\
    run_lines s ((o, buffer) :: later) = Ret s'.
Proof.
  intros Htok Hfit Hrun.
  destruct (process_line_builtin o s buffer "exit" rest Htok eq_refl Hfit)
    as (a & a' & Hp).
  eexists. split; [exact Hp|]. repeat split.
  simpl. rewrite Hrun, Hp. cbn [mbind exec_bind].
  by apply run_lines_stopped.
Qed.

Lemma exit_stops_the_loop_witness :
  should_run fresh_shell = true /\
  exists (s' : shell),
    process_line sample_os fresh_shell "exit | wc" = Ret (s', []) /\
    should_run s' = false /\
    history s' = chomp "exit | wc" /\
    cwd s' = cwd fresh_shell /\
    run_lines fresh_shell
      ((sample_os, "exit | wc") :: [ (sample_os, "ls") ]) = Ret s'.
Proof.
  split; [reflexivity|].
  apply (exit_stops_the_loop sample_os fresh_shell "exit | wc"
           [ "|"; "wc" ] [ (sample_os, "ls") ]).
  - reflexivity.
  - vm_compute; lia.
  - reflexivity.
Defined.

(** X11.  The built-in [history], typed on a line, shows that very
    line: the line is stored before it is dispatched, so the command
    typed before it is never shown and the no-history notice is never
    printed. *)
Theorem history_shows_its_own_line (o : os) (s : shell) (buffer : string)
    (rest : list string) :
  tokens (chomp buffer) = "history" :: rest ->
  length (tokens (chomp buffer)) < length (args s) ->
  exists (s' : shell),
    process_line o s buffer =
    Ret (s', [ Printf ("Last command: " +:+ chomp buffer +:+ nl) ]) /\
    history s' = chomp buffer.
Proof.
  intros Htok Hfit.
  destruct (process_line_builtin o s buffer "history" rest Htok eq_refl Hfit)
    as (a & a' & Hp).
  eexists. split; [exact Hp|]. reflexivity.
Qed.

Lemma history_shows_its_own_line_witness :
  exists (s' : shell),
    process_line sample_os (set_history fresh_shell "ls -l") "history" =
    Ret (s', [ Printf ("Last command: " +:+ chomp "history" +:+ nl) ]) /\
    history s' = chomp "history".
Proof.
  apply (history_shows_its_own_line sample_os
           (set_history fresh_shell "ls -l") "history" []).
  - reflexivity.
  - vm_compute; lia.
Defined.

(** X12.  [cd path]: when [chdir(path)] succeeds the directory changes
    and nothing is printed; when it fails the directory stays, [cd
    failed] is reported and the loop goes on.  Tokens after the path
    are ignored. *)
Theorem cd_with_path (o : os) (s : shell) (buffer path : string)
    (rest : list string) :
  tokens (chomp buffer) = "cd" :: path :: rest ->
  strip_marker (path :: rest) <> [] ->
  length (tokens (chomp buffer)) < length (args s) ->
  exists (s' : shell) (evs : list event),
    process_line o s buffer = Ret (s', evs) /\
    should_run s' = should_run s /\
    match chdir_to o (cwd s) (Some path) with
    | Some d => cwd s' = d /\ evs = [ Chdir (Some path) true ]
    | None =>
        cwd s' = cwd s /\
        evs = [ Chdir (Some path) false; Perror "cd failed" ]
    end.
Proof.
  intros Htok Hne Hfit.
  destruct (process_line_builtin o s buffer "cd" (path :: rest) Htok eq_refl Hfit)
    as (a & a' & Hp).
  destruct (strip_marker_head path rest) as [E|[l' E]]; [by destruct Hne|].
  rewrite E in Hp. cbn [head] in Hp.
  eexists _, _. split; [exact Hp|].
  unfold run_builtin, cd_to, chdir. cbn [streq]. simpl.
  destruct (chdir_to o (cwd s) (Some path)); simpl; repeat split.
Qed.

Lemma cd_with_path_witness :
  exists (s' : shell) (evs : list event),
    process_line no_home_os fresh_shell "cd /nowhere" = Ret (s', evs) /\
    should_run s' = should_run fresh_shell /\
    match chdir_to no_home_os (cwd fresh_shell) (Some "/nowhere") with
    | Some d => cwd s' = d /\ evs = [ Chdir (Some "/nowhere") true ]
    | None =>
        cwd s' = cwd fresh_shell /\
        evs = [ Chdir (Some "/nowhere") false; Perror "cd failed" ]
    end.
Proof.
  apply (cd_with_path no_home_os fresh_shell "cd /nowhere" "/nowhere" []).
  - reflexivity.
  - discriminate.
  - vm_compute; lia.
Defined.

(** ** The stored line along the loop *)

Section Stored.

Implicit Types (a junk : argv_array) (o : os) (s : shell).

Lemma chomp_newline_free (t : string) : newline_free (chomp t) = true.
Proof.
  induction t as [|c t IH]; [reflexivity|]. simpl.
  destruct (is_newline c) eqn:E; [reflexivity|]. simpl. by rewrite E, IH.
Qed.

Lemma newline_free_chomp (t : string) : newline_free t = true -> chomp t = t.
Proof.
  induction t as [|c t IH]; [reflexivity|]. simpl.
  destruct (is_newline c); [discriminate|]. simpl. intros H. by rewrite IH.
Qed.

Lemma process_line_chomp o s (b1 b2 : string) :
  chomp b1 = chomp b2 -> process_line o s b1 = process_line o s b2.
Proof. intros H. unfold process_line. by rewrite H. Qed.

(** What one line does to the store. *)
Lemma process_line_store o s (buffer : string) s' evs :
  process_line o s buffer = Ret (s', evs) ->
  (history s' = history s /\ history_available s' = history_available s) \/
  (history s' = chomp buffer /\ chomp buffer <> "" /\ chomp buffer <> "!!" /\
   history_available s' = true).
Proof.
  intros H. destruct (process_line_history o s buffer s' evs H)
    as [Hsame | (Hh & Hnr & Ha)]; [by left|].
  destruct (decide (chomp buffer = "")) as [E|E]; [|by right].
  left. unfold process_line in H. rewrite E, streq_refl in H. by simplify_eq.
Qed.

(** Induction along the lines of a run. *)
Lemma run_lines_ind (P : shell -> Prop) (Q : string -> Prop) :
  (forall o s b s' evs,
     P s -> Q b -> process_line o s b = Ret (s', evs) -> P s') ->
  forall (steps : list (os * string)) s0 s,
    P s0 -> Forall (fun step => Q step.2) steps ->
    run_lines s0 steps = Ret s -> P s.
Proof.
  intros Hstep steps. induction steps as [|[o b] steps IH];
    intros s0 s H0 Hall Hrun.
  - simpl in Hrun. by simplify_eq.
  - simpl in Hrun. destruct (should_run s0); [|by simplify_eq].
    inversion Hall as [|? ? Hb Hrest]; subst.
    destruct (process_line o s0 b) as [[s1 evs]|] eqn:Ep; [|discriminate].
    cbn [mbind exec_bind] in Hrun.
    apply (IH s1 s); [|exact Hrest|exact Hrun].
    by apply (Hstep o s0 b s1 evs).
Qed.

Lemma run_lines_stored (junk : argv_array) (dir : string)
    (steps : list (os * string)) s :
  run_lines (initial junk dir) steps = Ret s ->
  newline_free (history s) = true /\
  history s <> "!!" /\
  (history_available s = true <-> history s <> "").
Proof.
  intros Hrun.
  apply (run_lines_ind
           (fun s => newline_free (history s) = true /\ history s <> "!!" /\
                     (history_available s = true <-> history s <> ""))
           (fun _ => True)) with (steps := steps) (s0 := initial junk dir);
    [| |by apply Forall_forall|exact Hrun].
  - intros o s1 b s2 evs (Hn & Hr & Ha) _ Hp.
    destruct (process_line_store o s1 b s2 evs Hp)
      as [[-> ->] | (-> & Hne & Hnr & ->)]; [done|].
    split; [apply chomp_newline_free|]. split; [exact Hnr|]. by split.
  - split; [reflexivity|]. split; [discriminate|]. by split.
Qed.

(** A typed line: the store is overwritten, then the line is parsed
    and dispatched. *)
Lemma process_line_typed_unfold o s (buffer : string) :
  chomp buffer <> "" -> chomp buffer <> "!!" ->
  process_line o s buffer =
  '(bg, a) ← parse_input (chomp buffer) (args s);
  main_dispatch o (set_args (set_history s (chomp buffer)) a) bg.
Proof.
  intros Hne Hnr. unfold process_line, main_history.
  apply streq_false in Hne. apply streq_false in Hnr. rewrite Hne, Hnr.
  change (args (set_history s (chomp buffer))) with (args s).
  destruct (parse_input (chomp buffer) (args s)) as [[bg a]|]; [|reflexivity].
  cbn [mbind exec_bind]. apply bind_ret_nil.
Qed.

Lemma process_line_records o s (buffer : string) s' evs :
  chomp buffer <> "" -> chomp buffer <> "!!" ->
  process_line o s buffer = Ret (s', evs) ->
  history s' = chomp buffer /\ history_available s' = true.
Proof.
  intros Hne Hnr. rewrite (process_line_typed_unfold o s buffer Hne Hnr).
  destruct (parse_input (chomp buffer) (args s)) as [[bg a]|]; [|discriminate].
  cbn [mbind exec_bind]. intros Hd.
  by apply main_dispatch_keeps_history in Hd.
Qed.

Lemma process_line_recall_keeps o s (buffer : string) s' evs :
  chomp buffer = "!!" ->
  process_line o s buffer = Ret (s', evs) ->
  history s' = history s /\ history_available s' = history_available s.
Proof.
  intros Hr Hp.
  destruct (process_line_history o s buffer s' evs Hp) as [H|(_ & Hn & _)];
    [exact H | congruence].
Qed.

Lemma run_lines_recalls_keep s1 (again : list (os * string)) s2 :
  Forall (fun step => chomp step.2 = "!!") again ->
  run_lines s1 again = Ret s2 ->
  history s2 = history s1 /\ history_available s2 = history_available s1.
Proof.
  intros Hall Hrun.
  apply (run_lines_ind
           (fun s => history s = history s1 /\
                     history_available s = history_available s1)
           (fun b => chomp b = "!!")) with (steps := again) (s0 := s1);
    [|done|exact Hall|exact Hrun].
  intros o s b s' evs [Hh Ha] Hb Hp.
  destruct (process_line_recall_keeps o s b s' evs Hb Hp) as [-> ->]. done.
Qed.

End Stored.

(** C2.  History is idempotent under recall, along the loop.  A line
    [X] that is neither empty nor [!!] overwrites the store before it is
    parsed and dispatched.  After it, any number of [!!] lines, each
    with its parse and dispatch, leave the store at [X], and the next
    [!!] is [X] typed again after its echo.  A later line [Y] overwrites
    the store, and the recall after it yields [Y]. *)
Theorem history_recall_idempotent
    (s s1 s2 s3 s4 : shell) (oX oY oR : os) (bX bY bR : string)
    (again : list (os * string)) (evsX evsY evsR : list event) :
  chomp bX <> "" -> chomp bX <> "!!" ->
  chomp bY <> "" -> chomp bY <> "!!" ->
  Forall (fun step => chomp step.2 = "!!") again ->
  chomp bR = "!!" ->
  process_line oX s bX = Ret (s1, evsX) ->
  run_lines s1 again = Ret s2 ->
  process_line oY s2 bY = Ret (s3, evsY) ->
  process_line oR s3 bR = Ret (s4, evsR) ->
  process_line oX s bX =
    ('(bg, a) ← parse_input (chomp bX) (args s);
     main_dispatch oX (set_args (set_history s (chomp bX)) a) bg) /\
  (history s1 = chomp bX /\ history_available s1 = true) /\
  (history s2 = chomp bX /\ history_available s2 = true) /\
  (forall (o : os) (b : string),
     chomp b = "!!" ->
     process_line o s2 b =
     '(s', evs) ← process_line o s2 (chomp bX);
     Ret (s', Printf (chomp bX +:+ nl) :: evs)) /\
  (history s3 = chomp bY /\ history_available s3 = true) /\
  (history s4 = chomp bY /\ history_available s4 = true) /\
  exists (evs' : list event),
    process_line oR s3 (chomp bY) = Ret (s4, evs') /\
    evsR = Printf (chomp bY +:+ nl) :: evs'.
Proof.
  intros HXe HXr HYe HYr Hall HR H1 H2 H3 H4.
  destruct (process_line_records oX s bX s1 evsX HXe HXr H1) as [Hh1 Ha1].
  destruct (run_lines_recalls_keep s1 again s2 Hall H2) as [Hh2 Ha2].
  rewrite Hh1 in Hh2. rewrite Ha1 in Ha2.
  destruct (process_line_records oY s2 bY s3 evsY HYe HYr H3) as [Hh3 Ha3].
  destruct (process_line_recall_keeps oR s3 bR s4 evsR HR H4) as [Hh4 Ha4].
  rewrite Hh3 in Hh4. rewrite Ha3 in Ha4.
  assert (Hrecall : forall (o : os) (st : shell) (b X : string),
            history st = chomp X -> history_available st = true ->
            chomp X <> "" -> chomp X <> "!!" -> chomp b = "!!" ->
            process_line o st b =
            '(s', evs) ← process_line o st (chomp X);
            Ret (s', Printf (chomp X +:+ nl) :: evs)).
  { intros o st b X Hh Ha He Hr Hb.
    rewrite (process_line_chomp o st b "!!") by exact Hb.
    apply process_line_recall; [exact Hh | exact Ha | exact He | exact Hr|].
    apply newline_free_chomp, chomp_newline_free. }
  split; [by apply process_line_typed_unfold|].
  split; [by split|]. split; [by split|].
  split; [intros o b Hb; by apply (Hrecall o s2 b bX)|].
  split; [by split|]. split; [by split|].
  rewrite (Hrecall oR s3 bR bY Hh3 Ha3 HYe HYr HR) in H4.
  destruct (process_line oR s3 (chomp bY)) as [[s' evs']|]; [|discriminate].
  cbn [mbind exec_bind] in H4. simplify_eq. by exists evs'.
Qed.

Lemma history_recall_idempotent_witness :
  exists (s1 s2 s3 s4 : shell) (evsX evsY evsR : list event),
    process_line sample_os fresh_shell ("cd /tmp" +:+ nl) = Ret (s1, evsX) /\
    run_lines s1 [ (sample_os, "!!" +:+ nl); (no_home_os, "!!" +:+ nl) ]
      = Ret s2 /\
    process_line sample_os s2 ("ls -l" +:+ nl) = Ret (s3, evsY) /\
    process_line sample_os s3 ("!!" +:+ nl) = Ret (s4, evsR) /\
    (history s2 = chomp ("cd /tmp" +:+ nl) /\ history_available s2 = true) /\
    (history s4 = chomp ("ls -l" +:+ nl) /\ history_available s4 = true).
Proof.
  do 7 eexists.
  split; [vm_compute; reflexivity|].
  split; [vm_compute; reflexivity|].
  split; [vm_compute; reflexivity|].
  split; [vm_compute; reflexivity|].
  match goal with
  | |- (history ?s2 = _ /\ _) /\ (history ?s4 = _ /\ _) =>
      pose proof (history_recall_idempotent fresh_shell _ s2 _ s4
                    sample_os sample_os sample_os
                    ("cd /tmp" +:+ nl) ("ls -l" +:+ nl) ("!!" +:+ nl)
                    [ (sample_os, "!!" +:+ nl); (no_home_os, "!!" +:+ nl) ]
                    _ _ _
                    ltac:(discriminate) ltac:(discriminate)
                    ltac:(discriminate) ltac:(discriminate)
                    ltac:(repeat constructor) ltac:(reflexivity)
                    ltac:(vm_compute; reflexivity)
                    ltac:(vm_compute; reflexivity)
                    ltac:(vm_compute; reflexivity)
                    ltac:(vm_compute; reflexivity))
        as (_ & _ & H2 & _ & _ & H4 & _)
  end.
  split; [exact H2 | exact H4].
Defined.

(** X13.  In every state the loop reaches, a recall of a populated
    history is the stored line typed again, after its echo: same events,
    same resulting state. *)
Theorem recall_replays_stored_line (junk : argv_array) (dir : string)
    (steps : list (os * string)) (s : shell) (o : os) (buffer : string) :
  run_lines (initial junk dir) steps = Ret s ->
  history_available s = true ->
  chomp buffer = "!!" ->
  process_line o s buffer =
  '(s2, evs) ← process_line o s (history s);
  Ret (s2, Printf (history s +:+ nl) :: evs).
Proof.
  intros Hrun Ha Hb.
  destruct (run_lines_stored junk dir steps s Hrun) as (Hn & Hr & Hav).
  rewrite (process_line_chomp o s buffer "!!") by exact Hb.
  apply process_line_recall;
    [reflexivity | exact Ha | by apply Hav | exact Hr
    | by apply newline_free_chomp].
Qed.

Lemma recall_replays_stored_line_witness :
  exists (s : shell),
    run_lines fresh_shell [ (sample_os, "ls -l | wc") ] = Ret s /\
    process_line sample_os s ("!!" +:+ nl) =
    '(s2, evs) ← process_line sample_os s (history s);
    Ret (s2, Printf (history s +:+ nl) :: evs).
Proof.
  eexists. split; [vm_compute; reflexivity|].
  apply (recall_replays_stored_line (replicate MAX_ARGS None) "/"
           [ (sample_os, "ls -l | wc") ]).
  - vm_compute; reflexivity.
  - reflexivity.
  - reflexivity.
Defined.

(** X14.  In every state the loop reaches on buffers of fewer than
    [MAX_LINE] characters (all that [fgets] delivers), the stored line
    has no newline and fewer than [MAX_LINE] characters, so that it fits
    the buffers it is copied between; and [history_available] is set
    exactly when the stored line is not empty. *)
Theorem stored_line_fits_buffer (junk : argv_array) (dir : string)
    (steps : list (os * string)) (s : shell) :
  Forall (fun step => String.length step.2 < MAX_LINE) steps ->
  run_lines (initial junk dir) steps = Ret s ->
  String.length (history s) < MAX_LINE /\
  newline_free (history s) = true /\
  (history_available s = true <-> history s <> "").
Proof.
  intros Hall Hrun.
  split; [|by destruct (run_lines_stored junk dir steps s Hrun) as (? & _ & ?)].
  apply (run_lines_ind (fun s => String.length (history s) < MAX_LINE)
           (fun b => String.length b < MAX_LINE))
    with (steps := steps) (s0 := initial junk dir);
    [| |exact Hall|exact Hrun].
  - intros o s1 b s2 evs Hlen Hb Hp.
    destruct (process_line_store o s1 b s2 evs Hp)
      as [[-> _] | (-> & _)]; [exact Hlen|].
    pose proof (chomp_length b). lia.
  - unfold MAX_LINE. simpl. lia.
Qed.

Lemma stored_line_fits_buffer_witness :
  exists (s : shell),
    run_lines fresh_shell [ (sample_os, "ls" +:+ nl) ] = Ret s /\
    String.length (history s) < MAX_LINE.
Proof.
  eexists. split; [vm_compute; reflexivity|].
  refine (proj1 (stored_line_fits_buffer (replicate MAX_ARGS None) "/"
                   [ (sample_os, "ls" +:+ nl) ] _ _ _)).
  - constructor; [vm_compute; lia | constructor].
  - vm_compute; reflexivity.
Defined.

(** ** Safety of the argument array *)

Section Safety.

Implicit Types (a junk : argv_array) (o : os) (s : shell).

Lemma short_buffer_fits (buffer : string) :
  String.length buffer < MAX_LINE - 1 ->
  length (tokens (chomp buffer)) < MAX_ARGS.
Proof.
  intros Hlen. pose proof (chomp_length buffer) as Hc.
  pose proof (tokens_length_bound (chomp buffer)) as Ht.
  unfold MAX_LINE, MAX_ARGS in *. simpl in Hlen. lia.
Qed.

(** A line whose parsed text fits the array never faults, and leaves
    an array of the same size. *)
Lemma process_line_returns o s (buffer : string) :
  length (tokens (submitted s buffer)) < length (args s) ->
  exists s' evs,
    process_line o s buffer = Ret (s', evs) /\
    length (args s') = length (args s).
Proof.
  intros Hfit.
  destruct (decide (chomp buffer = "")) as [E|Hne].
  { exists s, []. unfold process_line. by rewrite E, streq_refl. }
  destruct (decide (chomp buffer = "!!" /\ history_available s = false))
    as [[E Ha]|Hav].
  { exists s, [ no_history_notice ]. unfold process_line, main_history.
    rewrite E, Ha. done. }
  destruct (process_line_submitted o s buffer Hne) as (a & a' & _ & Hl & ->);
    [|exact Hfit|by eexists _, _].
  intros E. destruct (history_available s); [done|]. destruct Hav; by split.
Qed.

Lemma process_line_ready o s (buffer : string) :
  ready s -> String.length buffer < MAX_LINE - 1 ->
  exists s' evs, process_line o s buffer = Ret (s', evs) /\ ready s'.
Proof.
  intros [Hcap Hhist] Hshort.
  pose proof (short_buffer_fits buffer Hshort) as Htok.
  destruct (process_line_returns o s buffer) as (s' & evs & Hp & Hl).
  { unfold submitted. rewrite Hcap. by destruct (streq _ _). }
  exists s', evs. split; [exact Hp|]. split; [lia|].
  destruct (process_line_history o s buffer s' evs Hp) as [[-> _]|(-> & _)];
    assumption.
Qed.

End Safety.

(** X15.  Run on an array of [MAX_ARGS] cells, the loop never stores or
    loads outside the array as long as every buffer has fewer than
    [MAX_LINE - 1] characters: each line then returns to the loop, also
    a recalled one. *)
Theorem short_lines_never_fault (junk : argv_array) (dir : string)
    (steps : list (os * string)) :
  length junk = MAX_ARGS ->
  Forall (fun step => String.length step.2 < MAX_LINE - 1) steps ->
  exists (s : shell),
    run_lines (initial junk dir) steps = Ret s /\
    length (args s) = MAX_ARGS.
Proof.
  intros Hcap Hall.
  assert (H0 : ready (initial junk dir)).
  { split; [exact Hcap | unfold MAX_ARGS; simpl; lia]. }
  revert H0. generalize (initial junk dir) as s0.
  induction Hall as [|[o b] steps Hb _ IH]; intros s0 H0.
  - exists s0. split; [reflexivity | apply H0].
  - simpl. destruct (should_run s0); [|exists s0; split; [reflexivity|apply H0]].
    destruct (process_line_ready o s0 b H0 Hb) as (s1 & evs & -> & H1).
    cbn [mbind exec_bind]. by apply IH.
Qed.

Lemma short_lines_never_fault_witness :
  length (replicate MAX_ARGS (@None string)) = MAX_ARGS /\
  exists (s : shell),
    run_lines (initial (replicate MAX_ARGS None) "/")
      [ (sample_os, "ls -l | wc"); (sample_os, "!!") ] = Ret s /\
    length (args s) = MAX_ARGS.
Proof.
  split; [reflexivity|].
  apply (short_lines_never_fault (replicate MAX_ARGS None) "/"
           [ (sample_os, "ls -l | wc"); (sample_os, "!!") ]).
  - reflexivity.
  - repeat (constructor; [vm_compute; lia|]). constructor.
Defined.

(** ** Cells the parser did not write *)

Section Stale.

Implicit Types (a junk : argv_array) (o : os) (s : shell).

Lemma run_builtin_set_args o s a (name : string) (arg1 : option string) :
  run_builtin o (set_args s a) name arg1 =
  (set_args (run_builtin o s name arg1).1 a, (run_builtin o s name arg1).2).
Proof.
  unfold run_builtin, cd_to, chdir, builtin_pwd, builtin_history. simpl.
  repeat case_match; simplify_eq; reflexivity.
Qed.

Lemma dispatch_set_args o s a (l : list string) (background : bool) :
  dispatch o (set_args s a) l background =
  (set_args (dispatch o s l background).1 a, (dispatch o s l background).2).
Proof.
  unfold dispatch. destruct l as [|first rest]; [reflexivity|].
  destruct (is_builtin first); [apply run_builtin_set_args|].
  by repeat case_match.
Qed.

End Stale.

(** X16.  The cells of the array that the parser has not written are
    never read: whatever the array held before the line (it is not
    initialised at the start, and keeps the previous line's arguments
    afterwards), the line has the same events and leaves the same
    history, loop flag and directory. *)
Theorem stale_cells_are_never_read (o : os) (s : shell) (junk : argv_array)
    (buffer : string) :
  length junk = length (args s) ->
  length (tokens (submitted s buffer)) < length (args s) ->
  exists (s1 s2 : shell) (evs : list event),
    process_line o s buffer = Ret (s1, evs) /\
    process_line o (set_args s junk) buffer = Ret (s2, evs) /\
    history s1 = history s2 /\
    history_available s1 = history_available s2 /\
    should_run s1 = should_run s2 /\
    cwd s1 = cwd s2.
Proof.
  intros Hlen Hfit.
  destruct (decide (chomp buffer = "")) as [E|Hne].
  { exists s, (set_args s junk), []. unfold process_line.
    rewrite E, streq_refl. by repeat split. }
  destruct (decide (chomp buffer = "!!" /\ history_available s = false))
    as [[E Ha]|Hav].
  { exists s, (set_args s junk), [ no_history_notice ].
    unfold process_line, main_history. rewrite E. simpl. rewrite Ha.
    by repeat split. }
  assert (Hrec : chomp buffer = "!!" -> history_available s = true).
  { intros E. destruct (history_available s); [done|]. destruct Hav; by split. }
  destruct (process_line_submitted o s buffer Hne Hrec Hfit)
    as (a1 & a1' & _ & _ & ->).
  destruct (process_line_submitted o (set_args s junk) buffer Hne Hrec)
    as (a2 & a2' & _ & _ & ->).
  { simpl. rewrite Hlen. exact Hfit. }
  change (submitted (set_args s junk) buffer) with (submitted s buffer).
  change (history (set_args s junk)) with (history s).
  destruct (streq (chomp buffer) "!!").
  - rewrite (dispatch_set_args o s a1).
    change (set_args (set_args s junk) a2) with (set_args s a2).
    rewrite (dispatch_set_args o s a2).
    eexists _, _, _. split; [reflexivity|]. split; [reflexivity|].
    by repeat split.
  - rewrite (dispatch_set_args o (set_history s (chomp buffer)) a1).
    change (set_args (set_history (set_args s junk) (chomp buffer)) a2)
      with (set_args (set_history s (chomp buffer)) a2).
    rewrite (dispatch_set_args o (set_history s (chomp buffer)) a2).
    eexists _, _, _. split; [reflexivity|]. split; [reflexivity|].
    by repeat split.
Qed.

Lemma stale_cells_are_never_read_witness :
  exists (s1 s2 : shell) (evs : list event),
    process_line sample_os fresh_shell "ls | wc" = Ret (s1, evs) /\
    process_line sample_os
      (set_args fresh_shell (replicate MAX_ARGS (Some "stale"))) "ls | wc" =
    Ret (s2, evs) /\
    history s1 = history s2 /\
    history_available s1 = history_available s2 /\
    should_run s1 = should_run s2 /\
    cwd s1 = cwd s2.
Proof.
  apply (stale_cells_are_never_read sample_os fresh_shell
           (replicate MAX_ARGS (Some "stale")) "ls | wc").
  - reflexivity.
  - vm_compute; lia.
Defined.

(** ** What one iteration reads *)

Section Stream.

Implicit Types (o : os) (s : shell) (line rest : string).

Lemma fgets_chars_line (k : nat) line rest :
  newline_free line = true -> String.length line < k ->
  fgets_chars k (line +:+ nl +:+ rest) = (line +:+ nl, rest).
Proof.
  revert k. induction line as [|c line IH]; intros k Hn Hk.
  - destruct k as [|k]; [simpl in Hk; lia | reflexivity].
  - destruct k as [|k]; [simpl in Hk; lia|]. simpl in Hn, Hk.
    apply andb_true_iff in Hn as [Hc Hn]. apply negb_true_iff in Hc.
    change (String c line +:+ nl +:+ rest)
      with (String c (line +:+ nl +:+ rest)).
    cbn [fgets_chars]. rewrite Hc, (IH k Hn) by lia. reflexivity.
Qed.

Lemma fgets_chars_full (k : nat) line rest :
  newline_free line = true -> String.length line = k ->
  fgets_chars k (line +:+ rest) = (line, rest).
Proof.
  revert k. induction line as [|c line IH]; intros k Hn Hk.
  - simpl in Hk. subst k. reflexivity.
  - destruct k as [|k]; [discriminate|]. simpl in Hn, Hk.
    apply andb_true_iff in Hn as [Hc Hn]. apply negb_true_iff in Hc.
    change (String c line +:+ rest) with (String c (line +:+ rest)).
    cbn [fgets_chars]. rewrite Hc, (IH k Hn) by lia. reflexivity.
Qed.

Lemma fgets_line line rest :
  newline_free line = true -> String.length line < MAX_LINE - 1 ->
  fgets MAX_LINE (line +:+ nl +:+ rest) = Some (line +:+ nl, rest).
Proof.
  intros Hn Hk. unfold fgets.
  rewrite (fgets_chars_line (MAX_LINE - 1) line rest Hn Hk).
  by destruct line.
Qed.

Lemma fgets_full line rest :
  newline_free line = true -> String.length line = MAX_LINE - 1 ->
  fgets MAX_LINE (line +:+ rest) = Some (line, rest).
Proof.
  intros Hn Hk. unfold fgets.
  rewrite (fgets_chars_full (MAX_LINE - 1) line rest Hn Hk).
  destruct line; [discriminate | reflexivity].
Qed.

(** The newline that ends the line is cut off, wherever the string
    functions stop. *)
Lemma chomp_c_string_line line :
  newline_free line = true ->
  chomp (c_string (line +:+ nl)) = chomp (c_string line).
Proof.
  induction line as [|c line IH]; [reflexivity|]. simpl.
  destruct (is_newline c) eqn:En; [discriminate|]. simpl. intros Hn.
  destruct (is_nul c); [reflexivity|]. simpl. by rewrite En, IH.
Qed.

End Stream.

(** X18.  Of an input that starts with a line of fewer than
    [MAX_LINE - 1] characters and its newline, an iteration processes
    that line, without the newline and up to its first NUL byte if it
    has one; nothing after the newline plays a part in the iteration. *)
Theorem iteration_reads_one_line (o : os) (s : shell) (line rest : string) :
  newline_free line = true ->
  String.length line < MAX_LINE - 1 ->
  main_iteration o s (line +:+ nl +:+ rest) =
  '(s', evs) ← process_line o s (c_string line);
  Ret (s', [ Reap (zombies o); Printf "uinxsh> " ] ++ evs, should_run s').
Proof.
  intros Hn Hk. unfold main_iteration. rewrite (fgets_line line rest Hn Hk).
  rewrite (process_line_chomp o s (c_string (line +:+ nl)) (c_string line));
    [reflexivity|].
  by apply chomp_c_string_line.
Qed.

Lemma iteration_reads_one_line_witness :
  String.length "ls -l" < MAX_LINE - 1 /\
  exists (s' : shell) (evs : list event),
    main_iteration sample_os fresh_shell ("ls -l" +:+ nl +:+ "pwd" +:+ nl) =
    Ret (s', evs, true) /\
    children evs = [ Child Inherited (Some "ls") [ "ls"; "-l" ] ].
Proof.
  split; [vm_compute; lia|].
  rewrite (iteration_reads_one_line sample_os fresh_shell "ls -l"
             ("pwd" +:+ nl) eq_refl ltac:(vm_compute; lia)).
  eexists _, _. split; [vm_compute; reflexivity | reflexivity].
Defined.

(** X19.  Of a line of [MAX_LINE - 1] characters or more, an iteration
    processes the first [MAX_LINE - 1] characters only (up to their first
    NUL byte if they have one): the characters after them play no part
    in the command of this iteration. *)
Theorem overlong_line_is_cut (o : os) (s : shell) (front back : string) :
  newline_free front = true ->
  String.length front = MAX_LINE - 1 ->
  main_iteration o s (front +:+ back) =
  '(s', evs) ← process_line o s (c_string front);
  Ret (s', [ Reap (zombies o); Printf "uinxsh> " ] ++ evs, should_run s').
Proof.
  intros Hn Hk. unfold main_iteration. by rewrite (fgets_full front back Hn Hk).
Qed.

Lemma overlong_line_is_cut_witness :
  String.length long_echo = MAX_LINE - 1 /\
  exists (s' : shell) (evs : list event),
    main_iteration sample_os fresh_shell (long_echo +:+ "yz | wc" +:+ nl) =
    Ret (s', evs, true) /\
    children evs = [ Child Inherited (Some "echo") (tokens long_echo) ].
Proof.
  split; [reflexivity|].
  rewrite (overlong_line_is_cut sample_os fresh_shell long_echo
             ("yz | wc" +:+ nl) eq_refl eq_refl).
  eexists _, _. split; [vm_compute; reflexivity | reflexivity].
Defined.
